(** * Jumbo Shoo LoRa airtime calculator: the calculation and validation
      engine of [src/App.jsx], embedded in Rocq.

    The engine is the part of the [App] component that runs on every render:
    [calcAirtime], the two static tables [TX_CURRENT] and [EU_BANDS], the
    values derived from the component state (duty cycle, dwell, energy,
    battery life) and the list of configuration warnings.

    Numbers.  Every JavaScript value of type Number is modelled by [num]:
    an exact rational, or one of the three special values +Infinity,
    -Infinity and NaN, with the ECMAScript rules for the special values
    (x/0, 0*Infinity, Infinity-Infinity, comparisons with NaN).  Two things
    are abstracted: binary64 rounding (finite arithmetic is exact) and the
    sign of zero (zero is +0).  Where an exact quotient is a whole number, or
    an exact value sits on a threshold, the rounded value of the code can
    fall on the other side: its [Math.floor] can be one less, its verdict at
    exact equality can differ.  A statement that relates two numbers the
    code computes along different expression trees is therefore given with
    the relative allowance [rounding_tolerance] (see [close]), which is far
    above the rounding error of the few binary64 operations involved, and
    bounds are stated with a margin.  State fields that the interface fills from a
    list of integers or an integer input ([sf], [bw], [cr], [payload],
    [preamble], [txPower]) are of type [Z]; the free numeric fields
    ([voltage], [txIntervalMin], [battCapacity]) are finite rationals.

    What is modelled is one render: the values computed from the current
    state.  The two [useEffect] hooks (applying a preset, clearing the manual
    LDRO switch) change the state between renders and are not part of it. *)

From stdpp Require Import gmap strings list.
From Stdlib Require Import ZArith QArith Qcanon Qround Qpower Qabs Qminmax Lqa Lia.

(* ================================================================== *)
(** ** JavaScript numbers                                              *)
(* ================================================================== *)

Module JsNum.

Inductive num : Type :=
| Fin (q : Q)   (* a finite value; every operation keeps it in lowest terms *)
| PInf          (* Infinity *)
| NInf          (* -Infinity *)
| NaN.

Definition of_Q (q : Q) : num := Fin (Qred q).
Definition of_Z (z : Z) : num := Fin (inject_Z z).

(** The infinity (or NaN) selected by the sign of a finite operand. *)
Definition inf_of_sign (c : comparison) : num :=
  match c with Gt => PInf | Lt => NInf | Eq => NaN end.

Definition neg (x : num) : num :=
  match x with
  | Fin a => of_Q (- a)
  | PInf => NInf
  | NInf => PInf
  | NaN => NaN
  end.

Definition add (x y : num) : num :=
  match x, y with
  | NaN, _ | _, NaN => NaN
  | Fin a, Fin b => of_Q (a + b)
  | PInf, NInf | NInf, PInf => NaN
  | PInf, _ | _, PInf => PInf
  | NInf, _ | _, NInf => NInf
  end.

Definition sub (x y : num) : num :=
  match x, y with
  | Fin a, Fin b => of_Q (a - b)
  | _, _ => add x (neg y)
  end.

Definition mul (x y : num) : num :=
  match x, y with
  | NaN, _ | _, NaN => NaN
  | Fin a, Fin b => of_Q (a * b)
  | Fin a, PInf | PInf, Fin a => inf_of_sign (a ?= 0)
  | Fin a, NInf | NInf, Fin a => inf_of_sign (0 ?= a)
  | PInf, PInf | NInf, NInf => PInf
  | PInf, NInf | NInf, PInf => NInf
  end.

Definition div (x y : num) : num :=
  match x, y with
  | NaN, _ | _, NaN => NaN
  | Fin a, Fin b =>
      if Qeq_bool b 0 then inf_of_sign (a ?= 0) else of_Q (a / b)
  | Fin _, (PInf | NInf) => Fin 0
  | (PInf | NInf), (PInf | NInf) => NaN
  | PInf, Fin b => match b ?= 0 with Lt => NInf | _ => PInf end
  | NInf, Fin b => match b ?= 0 with Lt => PInf | _ => NInf end
  end.

(** [x < y]; false as soon as one side is NaN. *)
Definition ltb (x y : num) : bool :=
  match x, y with
  | NaN, _ | _, NaN => false
  | Fin a, Fin b => match a ?= b with Lt => true | _ => false end
  | PInf, _ | _, NInf => false
  | NInf, _ | Fin _, PInf => true
  end.

(** [x <= y]; false as soon as one side is NaN. *)
Definition leb (x y : num) : bool :=
  match x, y with
  | NaN, _ | _, NaN => false
  | Fin a, Fin b => Qle_bool a b
  | NInf, _ | _, PInf => true
  | PInf, _ | Fin _, NInf => false
  end.

Definition gtb (x y : num) : bool := ltb y x.

(** [Math.pow(2, e)] for an integer exponent. *)
Definition Math_pow2 (e : Z) : num := of_Q (Qpower 2 e).

Definition Math_ceil (x : num) : num :=
  match x with Fin a => of_Z (Qceiling a) | _ => x end.

Definition Math_floor (x : num) : num :=
  match x with Fin a => of_Z (Qfloor a) | _ => x end.

(** [Math.max(x, y)]: NaN if either argument is NaN. *)
Definition Math_max (x y : num) : num :=
  match x, y with
  | NaN, _ | _, NaN => NaN
  | _, _ => if ltb x y then y else x
  end.

Definition is_finite (x : num) : bool :=
  match x with Fin _ => true | _ => false end.

(** [x ?? d] and [o?.f ?? d] on a value that may be undefined. *)
Definition nullish {A : Type} (o : option A) (d : A) : A :=
  match o with Some v => v | None => d end.
Arguments nullish {A} & o d.

Declare Scope num_scope.
Delimit Scope num_scope with num.
Bind Scope num_scope with num.
Notation "x + y" := (add x y) : num_scope.
Notation "x - y" := (sub x y) : num_scope.
Notation "x * y" := (mul x y) : num_scope.
Notation "x / y" := (div x y) : num_scope.
Notation "x <? y" := (ltb x y) : num_scope.
Notation "x <=? y" := (leb x y) : num_scope.
Notation "x >? y" := (gtb x y) : num_scope.
Notation "o ?? d" := (nullish o d) (at level 66, left associativity) : num_scope.

End JsNum.

Import JsNum.
Coercion of_Z : Z >-> num.
Coercion of_Q : Q >-> num.

(* ================================================================== *)
(** ** The airtime formula                                             *)
(* ================================================================== *)

Local Open Scope Z_scope.
Local Open Scope num_scope.

Definition flag (b : bool) : num := if b then 1 else 0.

(** The header flag [IH] of [calcAirtime], a local constant of the function:
    SF6 requires implicit header mode. *)
Definition calcAirtime_IH (sf : Z) (explicitHeader : bool) : num :=
  flag ((sf =? 6)%Z || negb explicitHeader).

(** [calcAirtime({ sf, bw, preamble, payloadBytes, cr, crc, explicitHeader,
    lowDROptimize })]: the fields of the argument object are the arguments,
    in the order of the source; [bw] is in Hz.  The result is in ms. *)
Definition calcAirtime (sf bw preamble payloadBytes cr : Z)
    (crc explicitHeader lowDROptimize : bool) : num :=
  let DE := flag lowDROptimize in
  let IH := calcAirtime_IH sf explicitHeader in
  let CRC := flag crc in
  let t_sym := (Math_pow2 sf / bw) * 1000 in
  let t_preamble := (preamble + 4.25%Q) * t_sym in
  let inner := 8 * payloadBytes - 4 * sf + 28 + 16 * CRC - 20 * IH in
  let payload_sym_nb :=
    8 + Math_max (Math_ceil (inner / (4 * (sf - 2 * DE))) * (cr + 4)) 0 in
  let t_payload := payload_sym_nb * t_sym in
  t_preamble + t_payload.

(* ================================================================== *)
(** ** Static tables                                                   *)
(* ================================================================== *)

(** [TX_CURRENT]: TX power (dBm) to drive current (mA).  The keys of the
    JavaScript object are the decimal spellings of these integers. *)
Definition TX_CURRENT : gmap Z Z :=
  {[ 2 := 13; 5 := 17; 8 := 22; 11 := 26; 14 := 31; 17 := 87; 20 := 120 ]}%Z.

Definition TX_POWER_OPTIONS : list Z := [2; 5; 8; 11; 14; 17; 20]%Z.

(** An entry of [EU_BANDS]; [band_label] is its [label] field. *)
Record EuBand : Type := {
  id : string;
  band_label : string;
  duty : num          (* duty-cycle limit, percent *)
}.

Definition EU_BANDS : list EuBand := [
  {| id := "g";  band_label := "g  868.0–868.6 MHz";  duty := 1 |};
  {| id := "g1"; band_label := "g1 863.0–868.0 MHz";  duty := 1 |};
  {| id := "g2"; band_label := "g2 868.7–869.2 MHz";  duty := 0.1%Q |};
  {| id := "g3"; band_label := "g3 869.4–869.65 MHz"; duty := 10 |}
].

(* ================================================================== *)
(** ** The component state and the values derived from it              *)
(* ================================================================== *)

(** The [useState] cells the engine reads.  [preset] and [showCadNotes]
    only drive the interface and are left out. *)
Record State : Type := {
  region : string;
  sf : Z;
  bw : Z;                (* kHz *)
  payload : Z;
  cr : Z;
  preamble : Z;
  crc : bool;
  explicitHeader : bool;
  txPower : Z;
  voltage : Q;
  txIntervalMin : Q;
  euBand : string;
  battCapacity : Q;
  ldrManual : bool
}.

Inductive Level : Type := error | caution.

(** A warning as pushed by the component.  The [message] text, which
    formats numbers for display, is not modelled. *)
Record Warning : Type := {
  level : Level;
  label : string
}.

Definition Level_eqb (a b : Level) : bool :=
  match a, b with
  | error, error | caution, caution => true
  | _, _ => false
  end.

(** [warnings.push(w)] guarded by [if (c)]. *)
Definition push_if (c : bool) (w : Warning) (ws : list Warning) : list Warning :=
  if c then ws ++ [w] else ws.

Section Render.

Variable st : State.

Definition tSym_ms : num := Math_pow2 (sf st) / bw st.
Definition ldrRequired : bool := tSym_ms >? 16.
Definition ldrOptimize : bool := ldrRequired || ldrManual st.

Definition airtime : num :=
  calcAirtime (sf st) (bw st * 1000)%Z (preamble st) (payload st) (cr st)
              (crc st) (explicitHeader st) ldrOptimize.
Definition current_mA : num := (TX_CURRENT !! txPower st ?? 31 : Z).
Definition energy_mJ : num :=
  (current_mA / 1000) * voltage st * (airtime / 1000) * 1000.
Definition energy_uAh : num := (current_mA * (airtime / 1000)) / 3.6%Q.

(* EU duty cycle *)
Definition euBandObj : option EuBand :=
  List.find (fun b => String.eqb (id b) (euBand st)) EU_BANDS.
Definition duty_limit : num := duty <$> euBandObj ?? 1.
Definition duty_used_per_tx : num := (airtime / 3600000) * 100.
Definition tx_per_hour : num :=
  if (txIntervalMin st : num) >? 0 then 60 / txIntervalMin st else 0.
Definition duty_used_per_hour : num := duty_used_per_tx * tx_per_hour.
Definition duty_pct_of_limit : num := (duty_used_per_hour / duty_limit) * 100.
Definition max_tx_per_hour : num :=
  Math_floor ((duty_limit / 100 * 3600000) / airtime).
Definition min_interval_s : num := airtime / (duty_limit / 100) / 1000.

(* g vs g3 re-arm for the current time on air *)
Definition rearm_g_s : num := airtime / 0.01%Q / 1000.
Definition rearm_g3_s : num := airtime / 0.10%Q / 1000.

(* US dwell time *)
Definition us_dwell_ok : bool := airtime <=? 400.

(* Battery life *)
Definition tx_energy_per_day_mAh : num := (energy_uAh / 1000) * tx_per_hour * 24.
Definition batt_days : num :=
  if tx_energy_per_day_mAh >? 0
  then battCapacity st / tx_energy_per_day_mAh
  else PInf.

Definition euCompliant : bool := duty_used_per_hour <=? duty_limit.
Definition compliant : bool :=
  if String.eqb (region st) "eu" then euCompliant else us_dwell_ok.

(* Configuration warnings, W1 to W8 in the order they are pushed *)
Definition W1 : Warning := {| level := error; label := "BW + Sub-band" |}.
Definition W2 : Warning := {| level := caution; label := "BW250 + g3" |}.
Definition W3 : Warning := {| level := error; label := "TX Power (EU)" |}.
Definition W4 : Warning := {| level := caution; label := "+20 dBm duty limit" |}.
Definition W5 : Warning := {| level := error; label := "US Dwell Time" |}.
Definition W6 : Warning := {| level := caution; label := "g2 sub-band" |}.
Definition W7 : Warning := {| level := caution; label := "Preamble symbols" |}.
Definition W8 : Warning := {| level := error; label := "SF6 + Explicit Header" |}.

Definition warnings : list Warning :=
  let warnings := [] in
  let warnings :=
    push_if (String.eqb (region st) "eu" && (bw st =? 500)%Z
             && String.eqb (euBand st) "g3") W1 warnings in
  let warnings :=
    push_if (String.eqb (region st) "eu" && (bw st =? 250)%Z
             && String.eqb (euBand st) "g3") W2 warnings in
  let warnings :=
    push_if (String.eqb (region st) "eu" && (txPower st >? 14)%Z) W3 warnings in
  let warnings := push_if (txPower st =? 20)%Z W4 warnings in
  let warnings :=
    push_if (String.eqb (region st) "us" && negb us_dwell_ok) W5 warnings in
  let warnings :=
    push_if (String.eqb (region st) "eu" && String.eqb (euBand st) "g2")
            W6 warnings in
  let warnings := push_if (preamble st <? 8)%Z W7 warnings in
  let warnings :=
    push_if ((sf st =? 6)%Z && explicitHeader st) W8 warnings in
  warnings.

Definition hasErrors : bool :=
  existsb (fun w => Level_eqb (level w) error) warnings.
Definition hasCautions : bool :=
  existsb (fun w => Level_eqb (level w) caution) warnings.

End Render.

(** Copies of a state with one cell changed (the [set...] calls). *)
Definition setExplicitHeader (v : bool) (st : State) : State := {|
  region := region st; sf := sf st; bw := bw st; payload := payload st;
  cr := cr st; preamble := preamble st; crc := crc st; explicitHeader := v;
  txPower := txPower st; voltage := voltage st;
  txIntervalMin := txIntervalMin st; euBand := euBand st;
  battCapacity := battCapacity st; ldrManual := ldrManual st
|}.

Definition setEuBand (v : string) (st : State) : State := {|
  region := region st; sf := sf st; bw := bw st; payload := payload st;
  cr := cr st; preamble := preamble st; crc := crc st;
  explicitHeader := explicitHeader st; txPower := txPower st;
  voltage := voltage st; txIntervalMin := txIntervalMin st; euBand := v;
  battCapacity := battCapacity st; ldrManual := ldrManual st
|}.

(** The initial state of the component: the "heartbeat" preset in the EU
    region, sub-band g, one transmission every 15 minutes. *)
Definition heartbeat : State := {|
  region := "eu"; sf := 12; bw := 125; payload := 12; cr := 2; preamble := 8;
  crc := true; explicitHeader := true; txPower := 14; voltage := 3.7;
  txIntervalMin := 15; euBand := "g"; battCapacity := 2000; ldrManual := false
|}.

(* ================================================================== *)
(** ** The specification, in its own words                             *)
(* ================================================================== *)

(** These definitions follow the specification text, not the code: the
    formulas of its section 4.1 read in rational arithmetic, the domain of
    its section 3, and the rule table of its section 4.4.  The theorems
    below compare them with the definitions above. *)
Module Spec.

Local Open Scope Q_scope.

(** Section 3: the documented domain of the radio parameters. *)
Definition valid_rf (st : State) : Prop :=
  (6 <= sf st <= 12)%Z /\
  (bw st = 125 \/ bw st = 250 \/ bw st = 500)%Z /\
  (1 <= cr st <= 4)%Z /\
  (1 <= payload st <= 255)%Z /\
  (6 <= preamble st)%Z.

Definition bandwidthHz (st : State) : Z := (bw st * 1000)%Z.

(** "Low-data-rate optimization required: true iff
    2^spreadingFactor / bandwidthHz * 1000 > 16". *)
Definition ldro_required (st : State) : Prop :=
  16 < 2 ^ sf st / inject_Z (bandwidthHz st) * 1000.

Definition ldro_requiredb (st : State) : bool :=
  match 16 ?= 2 ^ sf st / inject_Z (bandwidthHz st) * 1000 with Lt => true | _ => false end.

(** "If required, the effective LDRO flag is forced true ... Otherwise the
    effective flag equals the manual setting." *)
Definition effective_ldro (st : State) : bool :=
  if ldro_requiredb st then true else ldrManual st.

(** "implicit iff spreadingFactor == 6 OR NOT explicitHeaderRequested". *)
Definition implicit_header (st : State) : bool :=
  (sf st =? 6)%Z || negb (explicitHeader st).

Definition bit (b : bool) : Z := if b then 1%Z else 0%Z.
Definition DE (st : State) : Z := bit (effective_ldro st).
Definition IH (st : State) : Z := bit (implicit_header st).
Definition CRC (st : State) : Z := bit (crc st).

Definition t_sym (st : State) : Q :=
  2 ^ sf st / inject_Z (bandwidthHz st) * 1000.
Definition t_preamble (st : State) : Q :=
  (inject_Z (preamble st) + 4.25) * t_sym st.
Definition payloadBits (st : State) : Z :=
  (8 * payload st - 4 * sf st + 28 + 16 * CRC st - 20 * IH st)%Z.
Definition numerator (st : State) : Z :=
  (Qceiling (inject_Z (payloadBits st) / inject_Z (4 * (sf st - 2 * DE st)))
   * (cr st + 4))%Z.
Definition payloadSyms (st : State) : Z := (8 + Z.max (numerator st) 0)%Z.
Definition t_payload (st : State) : Q := inject_Z (payloadSyms st) * t_sym st.
Definition airtime_ms (st : State) : Q := t_preamble st + t_payload st.

(** Section 4.4: the rule table, rule by rule. *)
Definition is_EU (st : State) : bool := String.eqb (region st) "eu".
Definition is_US (st : State) : bool := String.eqb (region st) "us".
Definition sub_band_is (b : string) (st : State) : bool :=
  String.eqb (euBand st) b.

Definition rule_condition (n : nat) (st : State) : bool :=
  match n with
  | 1%nat => is_EU st && (bw st =? 500)%Z && sub_band_is "g3" st
  | 2%nat => is_EU st && (bw st =? 250)%Z && sub_band_is "g3" st
  | 3%nat => is_EU st && (14 <? txPower st)%Z
  | 4%nat => (txPower st =? 20)%Z
  | 5%nat => is_US st && (400%Z <? airtime st)%num
  | 6%nat => is_EU st && sub_band_is "g2" st
  | 7%nat => (preamble st <? 8)%Z
  | 8%nat => (sf st =? 6)%Z && explicitHeader st
  | _ => false
  end.

Definition rule_level (n : nat) : Level :=
  match n with
  | 1%nat | 3%nat | 5%nat | 8%nat => error
  | _ => caution
  end.

Definition rules : list nat := [1; 2; 3; 4; 5; 6; 7; 8]%nat.

(** The rules that fire on a state, in table order. *)
Definition fired (st : State) : list nat :=
  List.filter (fun n => rule_condition n st) rules.

(** "x is approximately [target]", to within [tol]. *)
Definition approx (x : num) (target tol : Q) : Prop :=
  exists a, x = Fin a /\ Qabs (a - target) <= tol.

(** Scenario A of section 8, on the state it describes. *)
Definition scenario_A (st : State) : Prop :=
  approx (airtime st) 452.6 0.5 /\
  ldrOptimize st = true /\
  approx (duty_used_per_hour st) 0.0503 0.00005 /\
  compliant st = true /\
  hasErrors st = false.

(** "maxTxPerHour * minIntervalSeconds approximates the duty-limit window":
    the 3600 seconds of the hour, to within [tol] seconds. *)
Definition window_approx (st : State) (tol : Q) : Prop :=
  approx (max_tx_per_hour st * min_interval_s st)%num 3600 tol.

(** The TxCurrentTable of section 6. *)
Definition TxCurrentTable : list (Z * Z) :=
  [(2, 13); (5, 17); (8, 22); (11, 26); (14, 31); (17, 87); (20, 120)]%Z.

Definition sub_bands : list string := ["g"; "g1"; "g2"; "g3"].

End Spec.

(** The warning the code pushes for rule [n] of the table (comments W1 to
    W8 in the source). *)
Definition rule_warning (n : nat) : Warning :=
  match n with
  | 1%nat => W1 | 2%nat => W2 | 3%nat => W3 | 4%nat => W4
  | 5%nat => W5 | 6%nat => W6 | 7%nat => W7 | _ => W8
  end.

(* ================================================================== *)
(** ** States used in the statements below                             *)
(* ================================================================== *)

(** The heartbeat state raised to +20 dBm, still in the EU. *)
Definition heartbeat_20dBm : State := {|
  region := "eu"; sf := 12; bw := 125; payload := 12; cr := 2; preamble := 8;
  crc := true; explicitHeader := true; txPower := 20; voltage := 3.7;
  txIntervalMin := 15; euBand := "g"; battCapacity := 2000; ldrManual := false
|}.

(** The heartbeat state at SF6, explicit header still requested. *)
Definition sf6_explicit : State := {|
  region := "eu"; sf := 6; bw := 125; payload := 12; cr := 2; preamble := 8;
  crc := true; explicitHeader := true; txPower := 14; voltage := 3.7;
  txIntervalMin := 15; euBand := "g"; battCapacity := 2000; ldrManual := false
|}.

(** The heartbeat state at 500 kHz on sub-band g3. *)
Definition bw500_g3 : State := {|
  region := "eu"; sf := 12; bw := 500; payload := 12; cr := 2; preamble := 8;
  crc := true; explicitHeader := true; txPower := 14; voltage := 3.7;
  txIntervalMin := 15; euBand := "g3"; battCapacity := 2000; ldrManual := false
|}.

(** The same at SF6: 500 kHz on g3, SF6 with explicit header requested. *)
Definition bw500_g3_sf6 : State := {|
  region := "eu"; sf := 6; bw := 500; payload := 12; cr := 2; preamble := 8;
  crc := true; explicitHeader := true; txPower := 14; voltage := 3.7;
  txIntervalMin := 15; euBand := "g3"; battCapacity := 2000; ldrManual := false
|}.

(** The state of scenario A: the fields the scenario fixes; supply voltage,
    battery capacity and the manual LDRO switch are left free. *)
Definition scenario_A_input (st : State) : Prop :=
  region st = "eu" /\ sf st = 12%Z /\ bw st = 125%Z /\ cr st = 2%Z
  /\ payload st = 12%Z /\ preamble st = 8%Z /\ crc st = true
  /\ explicitHeader st = true /\ euBand st = "g" /\ txPower st = 14%Z
  /\ (txIntervalMin st == 15)%Q.

(** The heartbeat state with the longest payload, on sub-band g2. *)
Definition long_payload_g2 : State := {|
  region := "eu"; sf := 12; bw := 125; payload := 255; cr := 2; preamble := 8;
  crc := true; explicitHeader := true; txPower := 14; voltage := 3.7;
  txIntervalMin := 15; euBand := "g2"; battCapacity := 2000; ldrManual := false
|}.

(** The heartbeat state with no scheduled transmission. *)
Definition heartbeat_idle : State := {|
  region := "eu"; sf := 12; bw := 125; payload := 12; cr := 2; preamble := 8;
  crc := true; explicitHeader := true; txPower := 14; voltage := 3.7;
  txIntervalMin := 0; euBand := "g"; battCapacity := 2000; ldrManual := false
|}.

(** The heartbeat state with a TX power that is not in the table. *)
Definition heartbeat_15dBm : State := {|
  region := "eu"; sf := 12; bw := 125; payload := 12; cr := 2; preamble := 8;
  crc := true; explicitHeader := true; txPower := 15; voltage := 3.7;
  txIntervalMin := 15; euBand := "g"; battCapacity := 2000; ldrManual := false
|}.

(** The heartbeat state with a sub-band id that is not in [EU_BANDS]. *)
Definition heartbeat_g4 : State := setEuBand "g4" heartbeat.

(** Scenario C of section 8: US, SF12, 125 kHz, 51 bytes, preamble 8. *)
Definition us_51_bytes : State := {|
  region := "us"; sf := 12; bw := 125; payload := 51; cr := 2; preamble := 8;
  crc := true; explicitHeader := true; txPower := 14; voltage := 3.7;
  txIntervalMin := 15; euBand := "g"; battCapacity := 2000; ldrManual := false
|}.

(** Scenario E of section 8: 20 dBm in the US, on a short packet. *)
Definition us_20dBm : State := {|
  region := "us"; sf := 7; bw := 125; payload := 12; cr := 2; preamble := 8;
  crc := true; explicitHeader := true; txPower := 20; voltage := 3.7;
  txIntervalMin := 15; euBand := "g"; battCapacity := 2000; ldrManual := false
|}.

(* ================================================================== *)
(** ** Presets, event handlers and effects                             *)
(* ================================================================== *)

(** An entry of [PRESETS]; [preset_label] is its [label] field and the
    [preset_] fields are its [sf], [bw], [payload] and [cr].  The "custom"
    entry has no [desc]. *)
Record Preset : Type := {
  preset_label : string;
  desc : option string;
  preset_sf : Z;
  preset_bw : Z;
  preset_payload : Z;
  preset_cr : Z;
  txPower_eu : Z;
  txPower_us : Z
}.

Definition PRESETS_entries : list (string * Preset) := [
  ("heartbeat",
   {| preset_label := "Sensor Heartbeat";
      desc := Some "Node alive · battery voltage · temperature";
      preset_sf := 12; preset_bw := 125; preset_payload := 12; preset_cr := 2;
      txPower_eu := 14; txPower_us := 20 |});
  ("status",
   {| preset_label := "Status Report";
      desc := Some "RPi diagnostics · sensor health metrics";
      preset_sf := 12; preset_bw := 125; preset_payload := 24; preset_cr := 2;
      txPower_eu := 14; txPower_us := 20 |});
  ("detection",
   {| preset_label := "Detection Event";
      desc := Some "Seismic trigger · node ID + timestamp + amplitude";
      preset_sf := 12; preset_bw := 125; preset_payload := 8; preset_cr := 2;
      txPower_eu := 14; txPower_us := 20 |});
  ("ping",
   {| preset_label := "Alive Ping";
      desc := Some "Minimal keepalive · lowest power";
      preset_sf := 12; preset_bw := 125; preset_payload := 6; preset_cr := 2;
      txPower_eu := 14; txPower_us := 20 |});
  ("custom",
   {| preset_label := "Custom"; desc := None;
      preset_sf := 12; preset_bw := 125; preset_payload := 12; preset_cr := 2;
      txPower_eu := 14; txPower_us := 20 |})
].

(** The [PRESETS] object, keyed by preset name. *)
Definition PRESETS : gmap string Preset := list_to_map PRESETS_entries.

(** The remaining [set...] calls of the component, one cell each. *)
Definition setRegion (v : string) (st : State) : State := {|
  region := v; sf := sf st; bw := bw st; payload := payload st;
  cr := cr st; preamble := preamble st; crc := crc st;
  explicitHeader := explicitHeader st; txPower := txPower st;
  voltage := voltage st; txIntervalMin := txIntervalMin st;
  euBand := euBand st; battCapacity := battCapacity st;
  ldrManual := ldrManual st
|}.

Definition setSf (v : Z) (st : State) : State := {|
  region := region st; sf := v; bw := bw st; payload := payload st;
  cr := cr st; preamble := preamble st; crc := crc st;
  explicitHeader := explicitHeader st; txPower := txPower st;
  voltage := voltage st; txIntervalMin := txIntervalMin st;
  euBand := euBand st; battCapacity := battCapacity st;
  ldrManual := ldrManual st
|}.

Definition setBw (v : Z) (st : State) : State := {|
  region := region st; sf := sf st; bw := v; payload := payload st;
  cr := cr st; preamble := preamble st; crc := crc st;
  explicitHeader := explicitHeader st; txPower := txPower st;
  voltage := voltage st; txIntervalMin := txIntervalMin st;
  euBand := euBand st; battCapacity := battCapacity st;
  ldrManual := ldrManual st
|}.

Definition setPayload (v : Z) (st : State) : State := {|
  region := region st; sf := sf st; bw := bw st; payload := v;
  cr := cr st; preamble := preamble st; crc := crc st;
  explicitHeader := explicitHeader st; txPower := txPower st;
  voltage := voltage st; txIntervalMin := txIntervalMin st;
  euBand := euBand st; battCapacity := battCapacity st;
  ldrManual := ldrManual st
|}.

Definition setCr (v : Z) (st : State) : State := {|
  region := region st; sf := sf st; bw := bw st; payload := payload st;
  cr := v; preamble := preamble st; crc := crc st;
  explicitHeader := explicitHeader st; txPower := txPower st;
  voltage := voltage st; txIntervalMin := txIntervalMin st;
  euBand := euBand st; battCapacity := battCapacity st;
  ldrManual := ldrManual st
|}.

Definition setPreamble (v : Z) (st : State) : State := {|
  region := region st; sf := sf st; bw := bw st; payload := payload st;
  cr := cr st; preamble := v; crc := crc st;
  explicitHeader := explicitHeader st; txPower := txPower st;
  voltage := voltage st; txIntervalMin := txIntervalMin st;
  euBand := euBand st; battCapacity := battCapacity st;
  ldrManual := ldrManual st
|}.

Definition setCrc (v : bool) (st : State) : State := {|
  region := region st; sf := sf st; bw := bw st; payload := payload st;
  cr := cr st; preamble := preamble st; crc := v;
  explicitHeader := explicitHeader st; txPower := txPower st;
  voltage := voltage st; txIntervalMin := txIntervalMin st;
  euBand := euBand st; battCapacity := battCapacity st;
  ldrManual := ldrManual st
|}.

Definition setTxPower (v : Z) (st : State) : State := {|
  region := region st; sf := sf st; bw := bw st; payload := payload st;
  cr := cr st; preamble := preamble st; crc := crc st;
  explicitHeader := explicitHeader st; txPower := v;
  voltage := voltage st; txIntervalMin := txIntervalMin st;
  euBand := euBand st; battCapacity := battCapacity st;
  ldrManual := ldrManual st
|}.

Definition setTxIntervalMin (v : Q) (st : State) : State := {|
  region := region st; sf := sf st; bw := bw st; payload := payload st;
  cr := cr st; preamble := preamble st; crc := crc st;
  explicitHeader := explicitHeader st; txPower := txPower st;
  voltage := voltage st; txIntervalMin := v;
  euBand := euBand st; battCapacity := battCapacity st;
  ldrManual := ldrManual st
|}.

Definition setLdrManual (v : bool) (st : State) : State := {|
  region := region st; sf := sf st; bw := bw st; payload := payload st;
  cr := cr st; preamble := preamble st; crc := crc st;
  explicitHeader := explicitHeader st; txPower := txPower st;
  voltage := voltage st; txIntervalMin := txIntervalMin st;
  euBand := euBand st; battCapacity := battCapacity st;
  ldrManual := v
|}.

(** The state of the component with its [preset] cell; [cells] are the
    cells of [State]. *)
Record App : Type := {
  preset : string;
  cells : State
}.

Definition markCustom (a : App) : App :=
  {| preset := "custom"; cells := cells a |}.

(** The [onChange] handlers of the RF selectors and inputs and the [onClick]
    handlers of the CRC and header toggles: set the cell, then [markCustom]. *)
Definition onChangeSf (v : Z) (a : App) : App :=
  markCustom {| preset := preset a; cells := setSf v (cells a) |}.
Definition onChangeBw (v : Z) (a : App) : App :=
  markCustom {| preset := preset a; cells := setBw v (cells a) |}.
Definition onChangeCr (v : Z) (a : App) : App :=
  markCustom {| preset := preset a; cells := setCr v (cells a) |}.
Definition onChangePayload (v : Z) (a : App) : App :=
  markCustom {| preset := preset a; cells := setPayload v (cells a) |}.
Definition onChangePreamble (v : Z) (a : App) : App :=
  markCustom {| preset := preset a; cells := setPreamble v (cells a) |}.
Definition onChangeTxPower (v : Z) (a : App) : App :=
  markCustom {| preset := preset a; cells := setTxPower v (cells a) |}.
Definition onClickCrc (a : App) : App :=
  markCustom {| preset := preset a;
                cells := setCrc (negb (crc (cells a))) (cells a) |}.
Definition onClickExplicitHdr (a : App) : App :=
  markCustom {| preset := preset a;
                cells := setExplicitHeader (negb (explicitHeader (cells a)))
                                           (cells a) |}.

(** The [onClick] handler of the LDRO button. *)
Definition onClickLdro (a : App) : App :=
  if negb (ldrRequired (cells a))
  then markCustom {| preset := preset a;
                     cells := setLdrManual (negb (ldrManual (cells a)))
                                           (cells a) |}
  else a.

(** The region buttons: [setRegion(r)]. *)
Definition onClickRegion (r : string) (a : App) : App :=
  {| preset := preset a; cells := setRegion r (cells a) |}.

(** The body of the first [useEffect], "apply preset".  [None] stands for
    the TypeError of reading [p.sf] when [PRESETS[preset]] is undefined. *)
Definition presetEffect (a : App) : option App :=
  if String.eqb (preset a) "custom" then Some a
  else
    match PRESETS !! preset a with
    | None => None
    | Some p =>
        let st := cells a in
        let st := setSf (preset_sf p) st in
        let st := setBw (preset_bw p) st in
        let st := setPayload (preset_payload p) st in
        let st := setCr (preset_cr p) st in
        let st :=
          setTxPower (if String.eqb (region (cells a)) "us"
                      then txPower_us p else txPower_eu p) st in
        Some {| preset := preset a; cells := st |}
    end.

(** The body of the second [useEffect]: [if (ldrRequired) setLdrManual(false)]. *)
Definition ldrEffect (st : State) : State :=
  if ldrRequired st then setLdrManual false st else st.

(** The TX power menu: [TX_POWER_OPTIONS.filter(p => region === "us" || p <= 14)]. *)
Definition txPowerMenu (region : string) : list Z :=
  List.filter (fun p => String.eqb region "us" || (p <=? 14)%Z) TX_POWER_OPTIONS.

(* ================================================================== *)
(** ** Values computed in the result cards                             *)
(* ================================================================== *)

(** [Math.min(x, y)]: NaN if either argument is NaN. *)
Definition Math_min (x y : num) : num :=
  match x, y with
  | NaN, _ | _, NaN => NaN
  | _, _ => if y <? x then y else x
  end.

Section Cards.

Variable st : State.

(* Time on Air card *)
Definition symbolDuration_shown : num :=
  (Math_pow2 (sf st) / (bw st * 1000)) * 1000.
Definition bitrate_shown : num :=
  sf st * (4 / (4 + cr st)) * bw st * 1000 / Math_pow2 (sf st) / 1000.

(* Duty Cycle Analysis card *)
Definition duty_class : string :=
  if duty_pct_of_limit st >? 90 then "danger"
  else if duty_pct_of_limit st >? 70 then "warning" else "good".
Definition duty_bar_width : num := Math_min (duty_pct_of_limit st) 100.
Definition rearm_g_events : num := Math_floor (3600 / rearm_g_s st).
Definition rearm_g3_events : num := Math_floor (3600 / rearm_g3_s st).

(* US dwell card *)
Definition dwell_pct : num := (airtime st / 400) * 100.
Definition dwell_bar_width : num := Math_min dwell_pct 100.

(* Header of the warnings card *)
Definition error_count : nat :=
  length (List.filter (fun w => Level_eqb (level w) error) (warnings st)).
Definition caution_count : nat :=
  length (List.filter (fun w => Level_eqb (level w) caution) (warnings st)).

End Cards.

(** The heartbeat state with a transmission every 30 seconds. *)
Definition heartbeat_fast : State := setTxIntervalMin 0.5 heartbeat.

(** The initial state of the whole component. *)
Definition initial_App : App := {| preset := "heartbeat"; cells := heartbeat |}.

(* ================================================================== *)
(** ** Rounding allowance                                              *)
(* ================================================================== *)

(** One part in a million: the relative allowance for two numbers that are
    equal in exact arithmetic and that the code computes with a handful of
    binary64 operations each (every operation is off by at most one part in
    2^53). *)
Definition rounding_tolerance : Q := 1 # 1000000.

(** [close x y]: [x] is [y] to within the allowance. *)
Definition close (x y : Q) : Prop :=
  (Qabs (x - y) <= rounding_tolerance * Qabs y)%Q.

(* ================================================================== *)
(** ** Arithmetic of [num] on finite values                        *)
(* ================================================================== *)

Lemma of_Q_eq (a b : Q) : (a == b)%Q -> of_Q a = of_Q b.
Proof. intros H. unfold of_Q. f_equal. now apply Qred_complete. Qed.

Lemma of_Z_of_Q (z : Z) : of_Z z = of_Q (inject_Z z).
Proof.
  unfold of_Z, of_Q. f_equal. symmetry. apply Qred_identity.
  simpl. apply Z.gcd_1_r.
Qed.

Lemma flag_of_Q (b : bool) : flag b = of_Q (inject_Z (Spec.bit b)).
Proof. destruct b; reflexivity. Qed.

Lemma add_of_Q (a b : Q) : of_Q a + of_Q b = of_Q (a + b).
Proof. apply of_Q_eq. now rewrite !Qred_correct. Qed.

Lemma sub_of_Q (a b : Q) : of_Q a - of_Q b = of_Q (a - b).
Proof. apply of_Q_eq. now rewrite !Qred_correct. Qed.

Lemma mul_of_Q (a b : Q) : of_Q a * of_Q b = of_Q (a * b).
Proof. apply of_Q_eq. now rewrite !Qred_correct. Qed.

Lemma div_of_Q (a b : Q) : ~ (b == 0)%Q -> of_Q a / of_Q b = of_Q (a / b).
Proof.
  intros Hb. unfold of_Q at 1 2. simpl.
  destruct (Qeq_bool (Qred b) 0) eqn:E.
  - apply Qeq_bool_iff in E. rewrite Qred_correct in E. contradiction.
  - apply of_Q_eq. now rewrite !Qred_correct.
Qed.

Lemma ltb_of_Q (a b : Q) : (of_Q a <? of_Q b) = true <-> (a < b)%Q.
Proof.
  unfold of_Q. simpl. rewrite <- Qred_lt, Qlt_alt.
  destruct (Qred a ?= Qred b)%Q; intuition congruence.
Qed.

Lemma leb_of_Q (a b : Q) : (of_Q a <=? of_Q b) = true <-> (a <= b)%Q.
Proof. unfold of_Q. simpl. now rewrite Qle_bool_iff, Qred_le. Qed.

(** On finite values [x > y] is the negation of [x <= y]. *)
Lemma gtb_negb_leb_Fin (a b : Q) : (Fin b <? Fin a) = negb (Fin a <=? Fin b).
Proof.
  simpl. destruct (Qle_bool a b) eqn:E.
  - apply Qle_bool_iff in E. destruct (b ?= a)%Q eqn:C; try reflexivity.
    apply Qlt_alt in C. lra.
  - destruct (b ?= a)%Q eqn:C; try reflexivity; exfalso.
    + apply Qeq_alt in C. assert (a <= b)%Q by lra.
      apply Qle_bool_iff in H. congruence.
    + apply Qgt_alt in C. assert (a <= b)%Q by lra.
      apply Qle_bool_iff in H. congruence.
Qed.

Lemma Math_ceil_of_Q (a : Q) : Math_ceil (of_Q a) = of_Q (inject_Z (Qceiling a)).
Proof.
  rewrite <- of_Z_of_Q. unfold of_Q, Math_ceil. f_equal.
  apply Qceiling_comp, Qred_correct.
Qed.

Lemma Math_floor_of_Q (a : Q) : Math_floor (of_Q a) = of_Q (inject_Z (Qfloor a)).
Proof.
  rewrite <- of_Z_of_Q. unfold of_Q, Math_floor. f_equal.
  apply Qfloor_comp, Qred_correct.
Qed.

Lemma Math_max_of_Q (a b : Q) : Math_max (of_Q a) (of_Q b) = of_Q (Qmax a b).
Proof.
  unfold Qmax, GenericMinMax.gmax, of_Q, Math_max, ltb.
  rewrite (Qred_compare a b). now destruct (Qred a ?= Qred b)%Q.
Qed.

Lemma Qmax_inject_Z (x y : Z) : Qmax (inject_Z x) (inject_Z y) = inject_Z (Z.max x y).
Proof.
  unfold Qmax, GenericMinMax.gmax, Z.max, Qcompare. simpl.
  rewrite !Z.mul_1_r. now destruct (x ?= y)%Z.
Qed.

Lemma inject_Z_nonzero (z : Z) : z <> 0%Z -> ~ (inject_Z z == 0)%Q.
Proof. intros Hz H. apply Hz. unfold Qeq in H. simpl in H. lia. Qed.

Lemma inject_Z_minus (x y : Z) : inject_Z (x - y) = (inject_Z x - inject_Z y)%Q.
Proof. unfold Z.sub, Qminus. now rewrite inject_Z_plus, inject_Z_opp. Qed.

Lemma bit_range (b : bool) : (0 <= Spec.bit b <= 1)%Z.
Proof. destruct b; simpl; lia. Qed.

Lemma close_eq (x y : Q) : (x == y)%Q -> close x y.
Proof.
  intros E. unfold close.
  assert (E0 : (x - y == 0)%Q) by lra.
  rewrite E0. change (Qabs 0) with 0%Q.
  apply Qmult_le_0_compat; [discriminate | apply Qabs_nonneg].
Qed.

(** Rewrites a [num] expression built from finite values into one [of_Q]. *)
Ltac num_norm :=
  rewrite ?flag_of_Q, ?of_Z_of_Q;
  repeat first
    [ rewrite add_of_Q | rewrite sub_of_Q | rewrite mul_of_Q
    | rewrite Math_ceil_of_Q | rewrite Math_floor_of_Q | rewrite Math_max_of_Q ].

(** Pushes [inject_Z] down to the variables of an integer expression. *)
Ltac push_inject_Z :=
  repeat first
    [ rewrite <- Qmax_inject_Z | rewrite inject_Z_plus | rewrite inject_Z_minus
    | rewrite inject_Z_mult | rewrite inject_Z_opp ].

(* ================================================================== *)
(** ** The derived flags                                           *)
(* ================================================================== *)

Section Flags.

Variable st : State.
Hypothesis Hbw : bw st <> 0%Z.

Lemma tSym_ms_of_Q : tSym_ms st = of_Q (2 ^ sf st / inject_Z (bw st)).
Proof using Hbw.
  unfold tSym_ms, Math_pow2. num_norm.
  now rewrite div_of_Q by now apply inject_Z_nonzero.
Qed.

(** The symbol time of the specification, in Hz and ms, is the one the
    component computes from the bandwidth in kHz. *)
Lemma t_sym_kHz : (Spec.t_sym st == 2 ^ sf st / inject_Z (bw st))%Q.
Proof using Hbw.
  unfold Spec.t_sym, Spec.bandwidthHz.
  rewrite inject_Z_mult. field. now apply inject_Z_nonzero.
Qed.

Lemma ldrRequired_iff :
  ldrRequired st = true <-> (16 < 2 ^ sf st / inject_Z (bw st))%Q.
Proof using Hbw.
  unfold ldrRequired, gtb. rewrite tSym_ms_of_Q. num_norm. apply ltb_of_Q.
Qed.

Lemma ldro_requiredb_iff :
  Spec.ldro_requiredb st = true <-> Spec.ldro_required st.
Proof using Type.
  unfold Spec.ldro_requiredb, Spec.ldro_required. rewrite Qlt_alt.
  destruct (16 ?= _)%Q; intuition congruence.
Qed.

Lemma ldrRequired_spec : ldrRequired st = Spec.ldro_requiredb st.
Proof using Hbw.
  apply eq_true_iff_eq. rewrite ldrRequired_iff, ldro_requiredb_iff.
  unfold Spec.ldro_required. fold (Spec.t_sym st). now rewrite t_sym_kHz.
Qed.

Lemma ldrOptimize_spec : ldrOptimize st = Spec.effective_ldro st.
Proof using Hbw.
  unfold ldrOptimize, Spec.effective_ldro. rewrite ldrRequired_spec.
  now destruct (Spec.ldro_requiredb st).
Qed.

Lemma t_sym_pos : (0 < bw st)%Z -> (0 < Spec.t_sym st)%Q.
Proof using Hbw.
  intros Hpos. rewrite t_sym_kHz.
  assert (H2 : (0 < 2 ^ sf st)%Q) by now apply Qpower_0_lt.
  assert (Hb : (0 < inject_Z (bw st))%Q) by (rewrite <- (Zlt_Qlt 0); exact Hpos).
  apply Qlt_shift_div_l; [exact Hb | lra].
Qed.

End Flags.

(* ================================================================== *)
(** ** The airtime on the documented domain                        *)
(* ================================================================== *)

Section Domain.

Variable st : State.
Hypothesis Hv : Spec.valid_rf st.

Lemma valid_rf_bw : bw st <> 0%Z.
Proof using Hv. destruct Hv as (_ & Hbw & _). lia. Qed.

(** The value computed with the operations of [num] is the rational number
    of the formula: no division by zero, no infinity, no NaN. *)
Lemma airtime_spec : airtime st = of_Q (Spec.airtime_ms st).
Proof using Hv.
  destruct Hv as (Hsf & Hbw & Hcr & Hpl & Hpre).
  unfold airtime, calcAirtime.
  rewrite ldrOptimize_spec by exact valid_rf_bw.
  unfold calcAirtime_IH, Math_pow2.
  fold (Spec.implicit_header st). fold (Spec.DE st) (Spec.IH st) (Spec.CRC st).
  num_norm.
  rewrite (div_of_Q _ (inject_Z (bw st * 1000)))
    by (apply inject_Z_nonzero; lia).
  assert (Hden : ~ (inject_Z 4 * (inject_Z (sf st) - inject_Z 2 * inject_Z (Spec.DE st))
                    == 0)%Q).
  { rewrite <- inject_Z_mult, <- inject_Z_minus, <- inject_Z_mult.
    apply inject_Z_nonzero. pose proof (bit_range (Spec.effective_ldro st)).
    unfold Spec.DE. lia. }
  rewrite div_of_Q by exact Hden.
  num_norm.
  apply of_Q_eq.
  unfold Spec.airtime_ms, Spec.t_preamble, Spec.t_payload, Spec.payloadSyms,
    Spec.numerator, Spec.payloadBits, Spec.t_sym, Spec.bandwidthHz.
  push_inject_Z. reflexivity.
Qed.

Lemma airtime_ms_pos : (0 < Spec.airtime_ms st)%Q.
Proof using Hv.
  destruct Hv as (Hsf & Hbw & Hcr & Hpl & Hpre).
  assert (Hts : (0 < Spec.t_sym st)%Q) by (apply t_sym_pos; lia).
  assert (Hp : (6 <= inject_Z (preamble st))%Q) by (rewrite <- (Zle_Qle 6); exact Hpre).
  assert (Hs : (8 <= inject_Z (Spec.payloadSyms st))%Q).
  { rewrite <- (Zle_Qle 8). unfold Spec.payloadSyms. lia. }
  unfold Spec.airtime_ms, Spec.t_preamble, Spec.t_payload.
  nra.
Qed.

(** On the documented domain the airtime is a finite, positive number. *)
Lemma airtime_finite_pos : exists a, airtime st = Fin a /\ (0 < a)%Q.
Proof using Hv.
  exists (Qred (Spec.airtime_ms st)). split.
  - exact airtime_spec.
  - rewrite Qred_correct. exact airtime_ms_pos.
Qed.

End Domain.

(** A finite sum is always in lowest terms. *)
Lemma airtime_canonical (st : State) (a : Q) :
  airtime st = Fin a -> airtime st = of_Q a.
Proof.
  unfold airtime, calcAirtime.
  match goal with |- (?x + ?y) = _ -> _ => generalize x, y end.
  intros x y H. rewrite H.
  destruct x as [p | | |], y as [q | | |]; simpl in H; try discriminate H.
  injection H as <-. unfold of_Q. now rewrite Qred_involutive.
Qed.

(* ================================================================== *)
(** ** Duty cycle, energy and the two tables                       *)
(* ================================================================== *)

(** The duty limit is one of the three limits of the table. *)
Lemma duty_limit_cases (st : State) :
  duty_limit st = of_Q 1 \/ duty_limit st = of_Q 0.1 \/ duty_limit st = of_Q 10.
Proof.
  unfold duty_limit, euBandObj, EU_BANDS. cbn [List.find id].
  destruct (String.eqb "g" (euBand st)); [left; reflexivity | ].
  destruct (String.eqb "g1" (euBand st)); [left; reflexivity | ].
  destruct (String.eqb "g2" (euBand st)); [right; left; reflexivity | ].
  destruct (String.eqb "g3" (euBand st)); [right; right; reflexivity | ].
  left; reflexivity.
Qed.

Lemma duty_limit_pos (st : State) :
  exists d, duty_limit st = of_Q d /\ (0 < d)%Q.
Proof.
  destruct (duty_limit_cases st) as [H | [H | H]]; rewrite H;
    eexists; (split; [reflexivity | reflexivity]).
Qed.

(** The two budget figures of the EU card, for a finite positive airtime. *)
Lemma max_tx_min_interval (st : State) (a d : Q) :
  airtime st = of_Q a -> (0 < a)%Q -> duty_limit st = of_Q d -> (0 < d)%Q ->
  max_tx_per_hour st = of_Q (inject_Z (Qfloor (d / 100 * 3600000 / a)))
  /\ min_interval_s st = of_Q (a / (d / 100) / 1000).
Proof.
  intros Ha Hpos Hd Hdpos. unfold max_tx_per_hour, min_interval_s.
  rewrite Ha, Hd. num_norm.
  assert (H100 : ~ (inject_Z 100 == 0)%Q) by (apply inject_Z_nonzero; lia).
  assert (H1000 : ~ (inject_Z 1000 == 0)%Q) by (apply inject_Z_nonzero; lia).
  assert (Ha0 : ~ (a == 0)%Q) by lra.
  assert (Hd0 : ~ (d / inject_Z 100 == 0)%Q).
  { intros E. assert (0 < d / inject_Z 100)%Q; [ | lra].
    apply Qlt_shift_div_l; [reflexivity | lra]. }
  rewrite (div_of_Q d) by exact H100. num_norm.
  rewrite (div_of_Q _ a) by exact Ha0. num_norm.
  rewrite (div_of_Q a) by exact Hd0.
  rewrite div_of_Q by exact H1000.
  split; reflexivity.
Qed.

(** Finite values stay finite under the operations of the energy model. *)
Lemma energy_of_Q (st : State) (a : Q) (c : Z) :
  airtime st = of_Q a -> current_mA st = of_Z c ->
  energy_mJ st = of_Q (inject_Z c / 1000 * voltage st * (a / 1000) * 1000)
  /\ energy_uAh st = of_Q (inject_Z c * (a / 1000) / 3.6).
Proof.
  intros Ha Hc. unfold energy_mJ, energy_uAh. rewrite Ha, Hc. num_norm.
  assert (H1000 : ~ (inject_Z 1000 == 0)%Q) by (apply inject_Z_nonzero; lia).
  rewrite !(div_of_Q _ (inject_Z 1000)) by exact H1000. num_norm.
  rewrite div_of_Q by (intros E; discriminate E).
  split; reflexivity.
Qed.

Lemma current_mA_of_Z (st : State) :
  current_mA st = of_Z (TX_CURRENT !! txPower st ?? 31%Z).
Proof. reflexivity. Qed.

Lemma tx_per_hour_zero (st : State) :
  (txIntervalMin st == 0)%Q -> tx_per_hour st = 0.
Proof.
  intros H. unfold tx_per_hour. rewrite (of_Q_eq _ 0 H). reflexivity.
Qed.

Lemma TX_CURRENT_table : TX_CURRENT = list_to_map Spec.TxCurrentTable.
Proof. reflexivity. Qed.

Lemma TX_CURRENT_lookup_None (k : Z) :
  ~ In k (List.map fst Spec.TxCurrentTable) -> TX_CURRENT !! k = None.
Proof.
  intros Hk. unfold TX_CURRENT.
  repeat (rewrite lookup_insert_ne by (intros <-; apply Hk; simpl; tauto)).
  apply lookup_singleton_ne. intros <-; apply Hk; simpl; tauto.
Qed.

Lemma euBandObj_unknown (st : State) :
  ~ In (euBand st) Spec.sub_bands -> euBandObj st = None.
Proof.
  intros H. unfold euBandObj, EU_BANDS. cbn [List.find id].
  repeat match goal with
  | |- context [String.eqb ?x (euBand st)] =>
      let E := fresh in
      destruct (String.eqb x (euBand st)) eqn:E;
      [ apply String.eqb_eq in E; exfalso; apply H; rewrite <- E; simpl; tauto | ]
  end.
  reflexivity.
Qed.

(* ================================================================== *)
(** ** The list of warnings                                        *)
(* ================================================================== *)

Lemma push_if_app (c : bool) (w : Warning) (ws : list Warning) :
  push_if c w ws = ws ++ (if c then [w] else []).
Proof. destruct c; simpl; [reflexivity | now rewrite app_nil_r]. Qed.

Lemma In_push_if (w w' : Warning) (c : bool) (ws : list Warning) :
  In w (push_if c w' ws) <-> In w ws \/ (c = true /\ w = w').
Proof.
  rewrite push_if_app, in_app_iff. destruct c; simpl; intuition congruence.
Qed.

(** Membership in the pushed list, from the eight guards of the code. *)
Lemma In_warnings (w : Warning) (st : State) :
  In w (warnings st) <->
    (String.eqb (region st) "eu" && (bw st =? 500)%Z
       && String.eqb (euBand st) "g3" = true /\ w = W1)
    \/ (String.eqb (region st) "eu" && (bw st =? 250)%Z
       && String.eqb (euBand st) "g3" = true /\ w = W2)
    \/ (String.eqb (region st) "eu" && (txPower st >? 14)%Z = true /\ w = W3)
    \/ ((txPower st =? 20)%Z = true /\ w = W4)
    \/ (String.eqb (region st) "us" && negb (us_dwell_ok st) = true /\ w = W5)
    \/ (String.eqb (region st) "eu" && String.eqb (euBand st) "g2" = true
        /\ w = W6)
    \/ ((preamble st <? 8)%Z = true /\ w = W7)
    \/ ((sf st =? 6)%Z && explicitHeader st = true /\ w = W8).
Proof.
  unfold warnings. rewrite !In_push_if. simpl. tauto.
Qed.

(** The pushed list, rule by rule, for the spec's conditions. *)
Lemma warnings_fired (st : State) :
  airtime st <> NaN ->
  warnings st = List.map rule_warning (Spec.fired st).
Proof.
  intros Hnan. unfold warnings, Spec.fired, Spec.rules.
  cbn [List.filter Spec.rule_condition].
  unfold Spec.is_EU, Spec.is_US, Spec.sub_band_is, us_dwell_ok.
  rewrite Z.gtb_ltb.
  assert (H5 : negb (airtime st <=? 400) = (400 <? airtime st)).
  { destruct (airtime st) as [a | | |]; try reflexivity; try congruence.
    unfold of_Z. now rewrite gtb_negb_leb_Fin. }
  rewrite H5.
  destruct (String.eqb (region st) "eu"), (String.eqb (region st) "us"),
    (bw st =? 500)%Z, (bw st =? 250)%Z, (String.eqb (euBand st) "g3"),
    (String.eqb (euBand st) "g2"), (14 <? txPower st)%Z, (txPower st =? 20)%Z,
    (400 <? airtime st), (preamble st <? 8)%Z, (sf st =? 6)%Z,
    (explicitHeader st); reflexivity.
Qed.

Lemma rule_warning_inj (n m : nat) :
  In n Spec.rules -> In m Spec.rules -> rule_warning n = rule_warning m -> n = m.
Proof.
  unfold Spec.rules. simpl. intros Hn Hm.
  repeat (destruct Hn as [<- | Hn]; [ | ]); try contradiction;
    repeat (destruct Hm as [<- | Hm]; [ | ]); try contradiction;
    intros H; try reflexivity; discriminate H.
Qed.

Lemma scenario_A_input_heartbeat : scenario_A_input heartbeat.
Proof. unfold scenario_A_input. simpl. repeat split; reflexivity. Qed.

(** Scenarios C and E of the specification, run on the embedding. *)
Example scenario_C :
  airtime us_51_bytes = of_Q 2826.24
  /\ us_dwell_ok us_51_bytes = false
  /\ warnings us_51_bytes = [W5].
Proof. repeat split; vm_compute; reflexivity. Qed.

Example scenario_E :
  airtime us_20dBm = of_Q 45.312 /\ warnings us_20dBm = [W4].
Proof. repeat split; vm_compute; reflexivity. Qed.

(* ================================================================== *)
(** ** The claims                                                  *)
(* ================================================================== *)

(** C1. For every parameter set of the documented domain the airtime
    returned by [calcAirtime] is t_preamble + t_payload, with
    t_sym = 2^SF / BW_Hz * 1000, t_preamble = (preamble + 4.25) * t_sym and
    t_payload = (8 + max(ceil((8*PL - 4*SF + 28 + 16*CRC - 20*IH)
    / (4*(SF - 2*DE))) * (CR + 4), 0)) * t_sym, where DE, IH and CRC are the
    flags derived by the rules of the specification. *)
Theorem airtime_preamble_plus_payload (st : State) :
  Spec.valid_rf st ->
  let SF := inject_Z (sf st) in
  let BW_Hz := inject_Z (bw st * 1000) in
  let CR := inject_Z (cr st) in
  let PL := inject_Z (payload st) in
  let DE := inject_Z (Spec.DE st) in
  let IH := inject_Z (Spec.IH st) in
  let CRC := inject_Z (Spec.CRC st) in
  let t_sym := (2 ^ sf st / BW_Hz * 1000)%Q in
  let t_preamble := ((inject_Z (preamble st) + 4.25) * t_sym)%Q in
  let t_payload :=
    ((8 + Qmax (inject_Z (Qceiling ((8 * PL - 4 * SF + 28 + 16 * CRC - 20 * IH)
                                    / (4 * (SF - 2 * DE))))
                * (CR + 4)) 0) * t_sym)%Q in
  airtime st = of_Q (t_preamble + t_payload).
Proof.
  intros Hv SF BW_Hz CR PL DE IH CRC t_sym t_preamble t_payload.
  rewrite (airtime_spec st Hv). apply of_Q_eq.
  unfold Spec.airtime_ms, Spec.t_preamble, Spec.t_payload, Spec.payloadSyms,
    Spec.numerator, Spec.payloadBits, Spec.t_sym, Spec.bandwidthHz.
  subst SF BW_Hz CR PL DE IH CRC t_sym t_preamble t_payload.
  push_inject_Z. reflexivity.
Qed.

Lemma airtime_preamble_plus_payload_witness :
  Spec.valid_rf heartbeat /\ airtime heartbeat = of_Q 1253.376.
Proof.
  assert (Hv : Spec.valid_rf heartbeat) by (unfold Spec.valid_rf; simpl; lia).
  split; [exact Hv | ].
  exact (airtime_preamble_plus_payload heartbeat Hv).
Defined.

(** C2. The validator emits exactly the warnings whose condition in the
    eight-rule table holds, each with the level of the table, in the order
    of the table, no rule suppressing another; at 20 dBm in the EU rules 3
    and 4 both fire. *)
Theorem warnings_follow_the_rule_table (st : State) :
  Spec.valid_rf st ->
  warnings st = List.map rule_warning (Spec.fired st)
  /\ (forall n, In n Spec.rules ->
        level (rule_warning n) = Spec.rule_level n
        /\ (In (rule_warning n) (warnings st) <-> Spec.rule_condition n st = true))
  /\ (region st = "eu" -> txPower st = 20%Z ->
        In W3 (warnings st) /\ In W4 (warnings st)).
Proof.
  intros Hv.
  assert (Hw : warnings st = List.map rule_warning (Spec.fired st)).
  { apply warnings_fired. destruct (airtime_finite_pos st Hv) as (a & -> & _).
    discriminate. }
  assert (Hin : forall n, In n Spec.rules ->
            (In (rule_warning n) (warnings st) <-> Spec.rule_condition n st = true)).
  { intros n Hn. rewrite Hw, in_map_iff. unfold Spec.fired. split.
    - intros (m & Hm & Hf). apply filter_In in Hf. destruct Hf as [Hmr Hc].
      now rewrite <- (rule_warning_inj m n Hmr Hn Hm).
    - intros Hc. exists n. split; [reflexivity | ]. apply filter_In. now split. }
  split; [exact Hw | split].
  - intros n Hn. split; [ | now apply Hin ].
    unfold Spec.rules in Hn. simpl in Hn.
    repeat (destruct Hn as [<- | Hn]; [reflexivity | ]). contradiction.
  - intros Hr Hp. split.
    + apply (Hin 3%nat); [simpl; tauto | ].
      simpl. unfold Spec.is_EU. rewrite Hr, Hp. reflexivity.
    + apply (Hin 4%nat); [simpl; tauto | ].
      simpl. rewrite Hp. reflexivity.
Qed.

Lemma warnings_follow_the_rule_table_witness :
  Spec.valid_rf heartbeat_20dBm /\ warnings heartbeat_20dBm = [W3; W4].
Proof.
  assert (Hv : Spec.valid_rf heartbeat_20dBm)
    by (unfold Spec.valid_rf; simpl; lia).
  split; [exact Hv | ].
  exact (proj1 (warnings_follow_the_rule_table heartbeat_20dBm Hv)).
Defined.

(** C3, counterexample.  On the state of scenario A the airtime is
    1253.376 ms, not 452.6 ms to within 0.5 ms, and the duty used per hour
    is 0.139264 %, not 0.0503 %. *)
Lemma scenario_A_airtime_is_not_452_6 :
  scenario_A_input heartbeat
  /\ airtime heartbeat = of_Q 1253.376
  /\ ~ Spec.approx (airtime heartbeat) 452.6 0.5
  /\ duty_used_per_hour heartbeat = of_Q 0.139264
  /\ ~ Spec.approx (duty_used_per_hour heartbeat) 0.0503 0.00005
  /\ ~ Spec.scenario_A heartbeat.
Proof.
  assert (Ha : ~ Spec.approx (airtime heartbeat) 452.6 0.5).
  { intros (a & Ha & Hle). vm_compute in Ha. injection Ha as <-.
    vm_compute in Hle. now apply Hle. }
  assert (Hd : ~ Spec.approx (duty_used_per_hour heartbeat) 0.0503 0.00005).
  { intros (a & Hd & Hle). vm_compute in Hd. injection Hd as <-.
    vm_compute in Hle. now apply Hle. }
  split; [exact scenario_A_input_heartbeat | ].
  split; [vm_compute; reflexivity | ]. split; [exact Ha | ].
  split; [vm_compute; reflexivity | ]. split; [exact Hd | ].
  intros (H & _). now apply Ha.
Qed.

(** C3, as amended.  On the state of scenario A the airtime is 1253.376 ms
    (symbol time 32.768 ms), the effective LDRO flag is true, the duty used
    per hour at a 15 minute interval is 0.139264 %, the result is compliant
    and no warning at all is emitted, in particular no Error. *)
Theorem scenario_A_values (st : State) :
  scenario_A_input st ->
  airtime st = of_Q 1253.376
  /\ Spec.approx (airtime st) 1253.4 0.5
  /\ tSym_ms st = of_Q 32.768
  /\ ldrOptimize st = true
  /\ duty_used_per_hour st = of_Q 0.139264
  /\ Spec.approx (duty_used_per_hour st) 0.1393 0.00005
  /\ compliant st = true
  /\ warnings st = []
  /\ hasErrors st = false.
Proof.
  destruct st as [rg s b pl c pre cc eh tp v ti eb bc lm].
  unfold scenario_A_input. simpl.
  intros (-> & -> & -> & -> & -> & -> & -> & -> & -> & -> & Hti).
  assert (Hair : forall st', sf st' = 12%Z -> bw st' = 125%Z -> cr st' = 2%Z ->
            payload st' = 12%Z -> preamble st' = 8%Z -> crc st' = true ->
            explicitHeader st' = true -> airtime st' = of_Q 1253.376).
  { intros st' H1 H2 H3 H4 H5 H6 H7. unfold airtime, ldrOptimize, ldrRequired, tSym_ms.
    rewrite H1, H2, H3, H4, H5, H6, H7. reflexivity. }
  set (st := {| region := "eu"; sf := 12; bw := 125; payload := 12; cr := 2;
                preamble := 8; crc := true; explicitHeader := true;
                txPower := 14; voltage := v; txIntervalMin := ti; euBand := "g";
                battCapacity := bc; ldrManual := lm |}).
  assert (Ha : airtime st = of_Q 1253.376) by (apply Hair; reflexivity).
  assert (Htx : tx_per_hour st = of_Q 4).
  { unfold tx_per_hour, st. cbn [txIntervalMin].
    rewrite (of_Q_eq ti 15 Hti). reflexivity. }
  assert (Hdu : duty_used_per_hour st = of_Q 0.139264).
  { unfold duty_used_per_hour, duty_used_per_tx. rewrite Ha, Htx. reflexivity. }
  split; [exact Ha | ].
  split; [rewrite Ha; eexists; split; [reflexivity | vm_compute; discriminate] | ].
  split; [reflexivity | ]. split; [reflexivity | ].
  split; [exact Hdu | ].
  split; [rewrite Hdu; eexists; split; [reflexivity | vm_compute; discriminate] | ].
  assert (Hc : compliant st = true).
  { unfold compliant, euCompliant. rewrite Hdu. reflexivity. }
  split; [exact Hc | ].
  assert (Hw : warnings st = []) by reflexivity.
  split; [exact Hw | ]. unfold hasErrors. now rewrite Hw.
Qed.

Lemma scenario_A_values_witness :
  scenario_A_input heartbeat
  /\ airtime heartbeat = of_Q 1253.376
  /\ duty_used_per_hour heartbeat = of_Q 0.139264.
Proof.
  assert (Hi : scenario_A_input heartbeat)
    by (unfold scenario_A_input; simpl; repeat split; reflexivity).
  pose proof (scenario_A_values heartbeat Hi) as (H1 & _ & _ & _ & H5 & _).
  split; [exact Hi | ]. split; [exact H1 | exact H5].
Defined.



(** C5. Whenever 2^SF / bandwidthHz * 1000 > 16, the low-data-rate flag
    passed to the airtime formula is true, even when the manual setting is
    false; otherwise the flag passed is the manual setting. *)
Theorem ldro_forced_above_16ms (st : State) :
  (0 < bw st)%Z ->
  airtime st = calcAirtime (sf st) (bw st * 1000)%Z (preamble st) (payload st)
                           (cr st) (crc st) (explicitHeader st) (ldrOptimize st)
  /\ (Spec.ldro_required st -> ldrOptimize st = true)
  /\ (~ Spec.ldro_required st -> ldrOptimize st = ldrManual st).
Proof.
  intros Hbw. split; [reflexivity | ].
  rewrite ldrOptimize_spec by lia. unfold Spec.effective_ldro.
  rewrite <- ldro_requiredb_iff.
  destruct (Spec.ldro_requiredb st); split; intros H; congruence.
Qed.

Lemma ldro_forced_above_16ms_witness :
  (0 < bw heartbeat)%Z /\ ldrManual heartbeat = false
  /\ ldrOptimize heartbeat = true.
Proof.
  assert (Hbw : (0 < bw heartbeat)%Z) by (simpl; lia).
  split; [exact Hbw | ]. split; [reflexivity | ].
  apply (ldro_forced_above_16ms heartbeat Hbw).
  unfold Spec.ldro_required. simpl. reflexivity.
Defined.

(** C6, counterexample.  A parameter set of the documented domain on which
    rule 1 and rule 8 fire in the same call. *)
Lemma rules_1_and_8_fire_together :
  Spec.valid_rf bw500_g3_sf6
  /\ Spec.rule_condition 1 bw500_g3_sf6 = true
  /\ Spec.rule_condition 8 bw500_g3_sf6 = true
  /\ warnings bw500_g3_sf6 = [W1; W8].
Proof.
  split; [unfold Spec.valid_rf; simpl; lia | ].
  repeat split; reflexivity.
Qed.

(** C6, as amended.  Rule 1 and rule 8 are independent: rule 1 fires exactly
    when region = EU, bandwidth = 500 kHz and sub-band = g3, rule 8 exactly
    when spreadingFactor = 6 and explicitHeader is set, and since the two
    conditions read different fields each of the four combinations (neither,
    only rule 1, only rule 8, both) occurs on some valid parameter set. *)
Theorem rules_1_and_8_independent :
  (forall st,
      (In W1 (warnings st) <-> Spec.rule_condition 1 st = true)
      /\ (In W8 (warnings st) <-> Spec.rule_condition 8 st = true))
  /\ (forall b1 b8 : bool, exists st,
        Spec.valid_rf st
        /\ (In W1 (warnings st) <-> b1 = true)
        /\ (In W8 (warnings st) <-> b8 = true)).
Proof.
  split.
  - intros st. rewrite !In_warnings. simpl.
    unfold Spec.is_EU, Spec.sub_band_is, W1, W2, W3, W4, W5, W6, W7, W8.
    split; split; intros H.
    + repeat (destruct H as [H | H]); destruct H as [H E];
        first [ discriminate E | exact H ].
    + left. now split.
    + repeat (destruct H as [H | H]); destruct H as [H E];
        first [ discriminate E | exact H ].
    + do 7 right. now split.
  - intros b1 b8.
    exists (if b1 then (if b8 then bw500_g3_sf6 else bw500_g3)
            else (if b8 then sf6_explicit else heartbeat)).
    destruct b1, b8; (split; [unfold Spec.valid_rf; simpl; lia | ]);
      rewrite !In_warnings; vm_compute; intuition congruence.
Qed.

(** C7, counterexample.  On the initial (heartbeat) state, in the EU with a
    positive airtime and a positive duty limit, maxTxPerHour is 28 and
    minIntervalSeconds is 125.3376, so the product is 3509.4528, between
    3509 and 3510: more than 90 seconds short of the 3600 second window.
    With a 255 byte payload on sub-band g2 maxTxPerHour is 0 and so is the
    product. *)
Lemma max_tx_times_min_interval_is_not_3600 :
  region heartbeat = "eu"
  /\ (0 <? airtime heartbeat) = true
  /\ (0 <? duty_limit heartbeat) = true
  /\ max_tx_per_hour heartbeat = 28
  /\ (exists p : Q,
        max_tx_per_hour heartbeat * min_interval_s heartbeat = of_Q p
        /\ (3509 < p < 3510)%Q)
  /\ ~ Spec.window_approx heartbeat 90
  /\ max_tx_per_hour long_payload_g2 * min_interval_s long_payload_g2 = 0.
Proof.
  split; [reflexivity | ]. split; [reflexivity | ]. split; [reflexivity | ].
  split; [vm_compute; reflexivity | ].
  split; [exists 3509.4528%Q; split; [vm_compute; reflexivity | split; reflexivity] | ].
  split; [ | vm_compute; reflexivity].
  intros (p & Hp & Hle). vm_compute in Hp. injection Hp as <-.
  vm_compute in Hle. now apply Hle.
Qed.

(** C7, as amended.  For every EU input with a finite airtime > 0,
    maxTxPerHour is an integer n >= 0, minIntervalSeconds a finite m > 0,
    and their product p falls short of the 3600 second window by less than
    one minimum interval and does not exceed it, to within floating rounding
    (one part in a million of the window, 3.6 ms):
    3600 * (1 - 10^-6) - m < p < 3600 * (1 + 10^-6). *)
Theorem max_tx_times_min_interval_bounds (st : State) (a : Q) :
  region st = "eu" -> airtime st = Fin a -> (0 < a)%Q ->
  exists (n : Z) (m p : Q),
    max_tx_per_hour st = of_Z n /\ (0 <= n)%Z
    /\ min_interval_s st = of_Q m /\ (0 < m)%Q
    /\ max_tx_per_hour st * min_interval_s st = of_Q p
    /\ (3600 * (1 - rounding_tolerance) - m < p
        < 3600 * (1 + rounding_tolerance))%Q.
Proof.
  intros _ Ha Hpos. apply airtime_canonical in Ha.
  destruct (duty_limit_pos st) as (d & Hd & Hdpos).
  destruct (max_tx_min_interval st a d Ha Hpos Hd Hdpos) as [Hn Hm].
  set (x := (d / 100 * 3600000 / a)%Q) in *.
  set (m := (a / (d / 100) / 1000)%Q) in *.
  assert (Hxm : (x * m == 3600)%Q) by (unfold x, m; field; split; lra).
  assert (Hmpos : (0 < m)%Q).
  { unfold m. apply Qlt_shift_div_l; [reflexivity | ]. rewrite Qmult_0_l.
    apply Qlt_shift_div_l; [ | lra].
    apply Qlt_shift_div_l; [reflexivity | lra]. }
  assert (Hxpos : (0 <= x)%Q) by nra.
  exists (Qfloor x), m, (inject_Z (Qfloor x) * m)%Q.
  split; [now rewrite of_Z_of_Q | ].
  split; [change 0%Z with (Qfloor 0); now apply Qfloor_resp_le | ].
  split; [exact Hm | ]. split; [exact Hmpos | ].
  split; [rewrite Hn, Hm; now num_norm | ].
  pose proof (Qfloor_le x) as Hlo. pose proof (Qlt_floor x) as Hhi.
  rewrite inject_Z_plus in Hhi. change (inject_Z 1) with 1%Q in Hhi.
  unfold rounding_tolerance. split; nra.
Qed.

Lemma max_tx_times_min_interval_bounds_witness :
  region heartbeat = "eu"
  /\ airtime heartbeat = Fin (156672 # 125) /\ (0 < 156672 # 125)%Q
  /\ exists (n : Z) (m p : Q),
       max_tx_per_hour heartbeat = of_Z n /\ (0 <= n)%Z
       /\ min_interval_s heartbeat = of_Q m /\ (0 < m)%Q
       /\ max_tx_per_hour heartbeat * min_interval_s heartbeat = of_Q p
       /\ (3600 * (1 - rounding_tolerance) - m < p
           < 3600 * (1 + rounding_tolerance))%Q.
Proof.
  split; [reflexivity | ]. split; [vm_compute; reflexivity | ].
  split; [reflexivity | ].
  apply (max_tx_times_min_interval_bounds heartbeat (156672 # 125));
    [reflexivity | vm_compute; reflexivity | reflexivity].
Defined.

(** C8. With txIntervalMinutes = 0 the transmission rate is 0, with no
    division performed; the zero rate propagates to a duty used per hour of
    0, a daily charge of 0 and a battery life of +Infinity; the other outputs
    (airtime, energy and charge per transmission, the EU budget figures) are
    still finite numbers. *)
Theorem zero_interval_is_no_transmission (st : State) :
  (txIntervalMin st == 0)%Q -> Spec.valid_rf st ->
  tx_per_hour st = 0
  /\ duty_used_per_hour st = 0
  /\ tx_energy_per_day_mAh st = 0
  /\ batt_days st = PInf
  /\ duty_pct_of_limit st = 0
  /\ is_finite (airtime st) = true
  /\ is_finite (energy_mJ st) = true
  /\ is_finite (energy_uAh st) = true
  /\ is_finite (max_tx_per_hour st) = true
  /\ is_finite (min_interval_s st) = true.
Proof.
  intros Hti Hv.
  pose proof (airtime_spec st Hv) as Ha.
  pose proof (airtime_ms_pos st Hv) as Hpos.
  destruct (duty_limit_pos st) as (d & Hd & Hdpos).
  destruct (energy_of_Q st _ _ Ha (current_mA_of_Z st)) as [HmJ HuAh].
  destruct (max_tx_min_interval st _ d Ha Hpos Hd Hdpos) as [Hn Hm].
  assert (Htx : tx_per_hour st = 0) by now apply tx_per_hour_zero.
  assert (H1000 : ~ (inject_Z 1000 == 0)%Q) by (apply inject_Z_nonzero; lia).
  assert (Hdu : duty_used_per_hour st = 0).
  { unfold duty_used_per_hour, duty_used_per_tx. rewrite Htx, Ha. num_norm.
    rewrite div_of_Q by (apply inject_Z_nonzero; lia). num_norm.
    apply of_Q_eq. change (inject_Z 0) with 0%Q. ring. }
  assert (Hday : tx_energy_per_day_mAh st = 0).
  { unfold tx_energy_per_day_mAh. rewrite Htx, HuAh. num_norm.
    rewrite div_of_Q by exact H1000. num_norm.
    apply of_Q_eq. change (inject_Z 0) with 0%Q. ring. }
  split; [exact Htx | ]. split; [exact Hdu | ]. split; [exact Hday | ].
  split; [unfold batt_days; now rewrite Hday | ].
  split.
  { unfold duty_pct_of_limit. rewrite Hdu, Hd. num_norm.
    rewrite div_of_Q by lra. num_norm.
    apply of_Q_eq. change (inject_Z 0) with 0%Q. field. lra. }
  rewrite Ha, HmJ, HuAh, Hn, Hm. repeat split; reflexivity.
Qed.

Lemma zero_interval_is_no_transmission_witness :
  (txIntervalMin heartbeat_idle == 0)%Q /\ Spec.valid_rf heartbeat_idle
  /\ tx_per_hour heartbeat_idle = 0
  /\ duty_used_per_hour heartbeat_idle = 0
  /\ tx_energy_per_day_mAh heartbeat_idle = 0
  /\ batt_days heartbeat_idle = PInf.
Proof.
  assert (Hti : (txIntervalMin heartbeat_idle == 0)%Q) by reflexivity.
  assert (Hv : Spec.valid_rf heartbeat_idle)
    by (unfold Spec.valid_rf; simpl; lia).
  pose proof (zero_interval_is_no_transmission heartbeat_idle Hti Hv)
    as (H1 & H2 & H3 & H4 & _).
  split; [exact Hti | ]. split; [exact Hv | ].
  split; [exact H1 | ]. split; [exact H2 | ]. split; [exact H3 | exact H4].
Defined.

(** C9. For a txPowerDbm that is a key of the TxCurrentTable the energy
    model uses the current of that key; for any other txPowerDbm the lookup
    resolves to 31 mA, the current of 14 dBm, a defined finite number. *)
Theorem tx_current_lookup (st : State) :
  (forall k c, In (k, c) Spec.TxCurrentTable -> txPower st = k ->
     current_mA st = of_Z c
     /\ energy_mJ st = (c / 1000) * voltage st * (airtime st / 1000) * 1000
     /\ energy_uAh st = (c * (airtime st / 1000)) / 3.6%Q)
  /\ (~ In (txPower st) (List.map fst Spec.TxCurrentTable) ->
     current_mA st = 31
     /\ In (14, 31)%Z Spec.TxCurrentTable
     /\ energy_mJ st = (31 / 1000) * voltage st * (airtime st / 1000) * 1000
     /\ energy_uAh st = (31 * (airtime st / 1000)) / 3.6%Q).
Proof.
  split.
  - intros k c Hin Hk.
    assert (Hc : current_mA st = of_Z c).
    { unfold current_mA. rewrite Hk. simpl in Hin.
      repeat (destruct Hin as [[= <- <-] | Hin]; [reflexivity | ]).
      contradiction. }
    unfold energy_mJ, energy_uAh. rewrite Hc. repeat split; reflexivity.
  - intros Hk.
    assert (Hc : current_mA st = 31).
    { unfold current_mA. now rewrite TX_CURRENT_lookup_None. }
    unfold energy_mJ, energy_uAh. rewrite Hc.
    repeat split; try reflexivity. simpl; tauto.
Qed.

Lemma tx_current_lookup_witness :
  current_mA heartbeat_20dBm = 120 /\ current_mA heartbeat_15dBm = 31.
Proof.
  split.
  - apply (proj1 (tx_current_lookup heartbeat_20dBm) 20%Z 120%Z);
      [simpl; tauto | reflexivity].
  - apply (proj2 (tx_current_lookup heartbeat_15dBm)).
    simpl. intros H. repeat (destruct H as [H | H]; [discriminate H | ]).
    exact H.
Defined.

(** C10. If the selected sub-band id is none of g, g1, g2, g3, the duty
    limit silently becomes 1 percent: percent of budget, max TX per hour,
    min interval and the EU verdict are those of a 1 % limit (the duty used
    does not depend on the limit), exactly as on sub-band g, and the list of
    warnings is that of sub-band g as well. *)
Theorem unknown_sub_band_falls_back_to_1_percent (st : State) :
  ~ In (euBand st) Spec.sub_bands ->
  duty_limit st = 1
  /\ duty_pct_of_limit st = (duty_used_per_hour st / 1) * 100
  /\ max_tx_per_hour st = Math_floor ((1 / 100 * 3600000) / airtime st)
  /\ min_interval_s st = airtime st / (1 / 100) / 1000
  /\ euCompliant st = (duty_used_per_hour st <=? 1)
  /\ (region st = "eu" -> compliant st = (duty_used_per_hour st <=? 1))
  /\ duty_used_per_hour st = duty_used_per_hour (setEuBand "g" st)
  /\ duty_pct_of_limit st = duty_pct_of_limit (setEuBand "g" st)
  /\ max_tx_per_hour st = max_tx_per_hour (setEuBand "g" st)
  /\ min_interval_s st = min_interval_s (setEuBand "g" st)
  /\ compliant st = compliant (setEuBand "g" st)
  /\ warnings st = warnings (setEuBand "g" st).
Proof.
  intros H.
  assert (Hd : duty_limit st = 1).
  { unfold duty_limit. now rewrite euBandObj_unknown. }
  assert (Hg : duty_limit (setEuBand "g" st) = 1) by reflexivity.
  assert (Hg3 : String.eqb (euBand st) "g3" = false).
  { apply String.eqb_neq. intros E. apply H. rewrite E. simpl; tauto. }
  assert (Hg2 : String.eqb (euBand st) "g2" = false).
  { apply String.eqb_neq. intros E. apply H. rewrite E. simpl; tauto. }
  split; [exact Hd | ].
  unfold duty_pct_of_limit, max_tx_per_hour, min_interval_s, compliant,
    euCompliant.
  rewrite Hd, Hg.
  repeat split; try reflexivity.
  - intros ->. reflexivity.
  - unfold warnings. cbn [region sf bw preamble txPower explicitHeader euBand
      setEuBand]. rewrite Hg3, Hg2. reflexivity.
Qed.

Lemma unknown_sub_band_falls_back_to_1_percent_witness :
  ~ In (euBand heartbeat_g4) Spec.sub_bands
  /\ duty_limit heartbeat_g4 = 1
  /\ max_tx_per_hour heartbeat_g4 = 28.
Proof.
  assert (H : ~ In (euBand heartbeat_g4) Spec.sub_bands).
  { simpl. intros H. repeat (destruct H as [H | H]; [discriminate H | ]).
    exact H. }
  pose proof (unknown_sub_band_falls_back_to_1_percent heartbeat_g4 H)
    as (H1 & _ & H3 & _).
  split; [exact H | ]. split; [exact H1 | ].
  rewrite H3. vm_compute. reflexivity.
Defined.


(* ================================================================== *)
(** ** Further properties: the cost of each radio parameter            *)
(* ================================================================== *)

Lemma Qdiv_inject_Z (b d : Z) :
  (0 < d)%Z -> (inject_Z b / inject_Z d == Qmake b (Z.to_pos d))%Q.
Proof.
  intros Hd. destruct d as [ | p | p]; try lia.
  unfold Qdiv, Qinv, inject_Z, Qeq. simpl. lia.
Qed.

Lemma Qceiling_div_pos (b d : Z) :
  (0 < d)%Z -> (0 < Qceiling (inject_Z b / inject_Z d))%Z -> (0 < b)%Z.
Proof.
  intros Hd Hc. pose proof (Qceiling_lt (inject_Z b / inject_Z d)) as H.
  pose proof (Qdiv_inject_Z b d Hd) as E.
  rewrite (Qceiling_comp _ _ E) in H, Hc.
  apply Qlt_le_trans with (z := Qmake b (Z.to_pos d)) in H;
    [ | apply Qle_lteq; right; exact E ].
  unfold Qlt in H. simpl in H. rewrite Z2Pos.id in H by assumption.
  nia.
Qed.

Lemma Qceiling_div_mono (b b' d d' : Z) :
  (0 < d' <= d)%Z -> (0 < b <= b')%Z ->
  (Qceiling (inject_Z b / inject_Z d) <= Qceiling (inject_Z b' / inject_Z d'))%Z.
Proof.
  intros Hd Hb.
  rewrite (Qceiling_comp _ _ (Qdiv_inject_Z b d ltac:(lia))).
  rewrite (Qceiling_comp _ _ (Qdiv_inject_Z b' d' ltac:(lia))).
  apply Qceiling_resp_le. unfold Qle. simpl.
  rewrite !Z2Pos.id by lia. nia.
Qed.

(** More payload bits, a smaller divisor or a longer code word never give
    fewer payload symbols. *)
Lemma numerator_max_mono (b b' d d' c c' : Z) :
  (0 < d' <= d)%Z -> (0 < c <= c')%Z -> (b <= b')%Z ->
  (Z.max (Qceiling (inject_Z b / inject_Z d) * c) 0
   <= Z.max (Qceiling (inject_Z b' / inject_Z d') * c') 0)%Z.
Proof.
  intros Hd Hc Hb.
  destruct (Z_lt_le_dec 0 (Qceiling (inject_Z b / inject_Z d))) as [Hk | Hk].
  - assert (0 < b)%Z by (apply (Qceiling_div_pos b d); lia).
    pose proof (Qceiling_div_mono b b' d d' Hd ltac:(lia)). nia.
  - assert (Qceiling (inject_Z b / inject_Z d) * c <= 0)%Z by nia. lia.
Qed.

(** Two valid states with the same symbol time and preamble: the one with
    more payload symbols has the longer airtime. *)
Lemma airtime_le_of_payloadSyms (st st' : State) :
  Spec.valid_rf st -> Spec.valid_rf st' ->
  sf st' = sf st -> bw st' = bw st -> preamble st' = preamble st ->
  (Spec.payloadSyms st <= Spec.payloadSyms st')%Z ->
  (airtime st <=? airtime st') = true.
Proof.
  intros Hv Hv' Hsf Hbw Hpre Hs.
  rewrite (airtime_spec st Hv), (airtime_spec st' Hv'). apply leb_of_Q.
  assert (Hts : (0 < Spec.t_sym st)%Q).
  { destruct Hv as (_ & Hb & _). apply t_sym_pos; lia. }
  assert (Ets : Spec.t_sym st' = Spec.t_sym st).
  { unfold Spec.t_sym, Spec.bandwidthHz. now rewrite Hsf, Hbw. }
  rewrite Zle_Qle in Hs.
  unfold Spec.airtime_ms, Spec.t_preamble, Spec.t_payload.
  rewrite Ets, Hpre. nra.
Qed.

(** Unfolds the payload symbol count of the specification down to the
    cells of the state. *)
Ltac unfold_payloadSyms :=
  unfold Spec.payloadSyms, Spec.numerator, Spec.payloadBits, Spec.DE, Spec.IH,
    Spec.CRC, Spec.effective_ldro, Spec.ldro_requiredb, Spec.implicit_header,
    Spec.bandwidthHz;
  cbn [region sf bw payload cr preamble crc explicitHeader txPower voltage
       txIntervalMin euBand battCapacity ldrManual
       setPayload setCr setCrc setExplicitHeader setLdrManual setPreamble].

Lemma divisor_pos (st : State) (b : bool) :
  Spec.valid_rf st -> (0 < 4 * (sf st - 2 * Spec.bit b))%Z.
Proof. intros (Hsf & _). destruct b; simpl; lia. Qed.



(** X2. With everything else fixed, a longer payload never gives a shorter
    airtime. *)
Theorem airtime_monotone_in_payload (st : State) (p : Z) :
  Spec.valid_rf st -> (payload st <= p <= 255)%Z ->
  (airtime st <=? airtime (setPayload p st)) = true.
Proof.
  intros Hv Hp. pose proof Hv as (Hsf & Hbw & Hcr & Hpl & Hpre).
  apply airtime_le_of_payloadSyms; try reflexivity; try exact Hv.
  - unfold Spec.valid_rf. cbn [sf bw cr payload preamble setPayload]. lia.
  - unfold_payloadSyms. apply Zplus_le_compat_l.
    pose proof (divisor_pos st (if Spec.ldro_requiredb st then true else ldrManual st) Hv).
    unfold Spec.ldro_requiredb, Spec.bandwidthHz in H.
    apply numerator_max_mono; lia.
Qed.

Lemma airtime_monotone_in_payload_witness :
  Spec.valid_rf heartbeat /\ (payload heartbeat <= 24 <= 255)%Z
  /\ (airtime heartbeat <=? airtime (setPayload 24 heartbeat)) = true.
Proof.
  assert (Hv : Spec.valid_rf heartbeat) by (unfold Spec.valid_rf; simpl; lia).
  assert (Hp : (payload heartbeat <= 24 <= 255)%Z) by (simpl; lia).
  split; [exact Hv | ]. split; [exact Hp | ].
  exact (airtime_monotone_in_payload heartbeat 24 Hv Hp).
Defined.

(** X3. The CRC and the explicit header never shorten a packet: switching
    either flag on, everything else fixed, never gives a shorter airtime. *)
Theorem crc_and_header_never_shorten (st : State) :
  Spec.valid_rf st ->
  (airtime (setCrc false st) <=? airtime (setCrc true st)) = true
  /\ (airtime (setExplicitHeader false st)
      <=? airtime (setExplicitHeader true st)) = true.
Proof.
  intros Hv. pose proof Hv as (Hsf & Hbw & Hcr & Hpl & Hpre).
  pose proof (divisor_pos st (if Spec.ldro_requiredb st then true else ldrManual st) Hv)
    as Hd.
  unfold Spec.ldro_requiredb, Spec.bandwidthHz in Hd.
  split; (apply airtime_le_of_payloadSyms; try reflexivity; try exact Hv).
  - unfold_payloadSyms. apply Zplus_le_compat_l.
    apply numerator_max_mono; simpl; lia.
  - unfold_payloadSyms. apply Zplus_le_compat_l.
    apply numerator_max_mono; try lia.
    destruct (sf st =? 6)%Z; simpl; lia.
Qed.

Lemma crc_and_header_never_shorten_witness :
  Spec.valid_rf heartbeat
  /\ (airtime (setCrc false heartbeat) <=? airtime (setCrc true heartbeat)) = true.
Proof.
  assert (Hv : Spec.valid_rf heartbeat) by (unfold Spec.valid_rf; simpl; lia).
  split; [exact Hv | ].
  exact (proj1 (crc_and_header_never_shorten heartbeat Hv)).
Defined.

(** X4. A higher coding-rate offset (more redundancy) never gives a shorter
    airtime. *)
Theorem airtime_monotone_in_coding_rate (st : State) (c : Z) :
  Spec.valid_rf st -> (cr st <= c <= 4)%Z ->
  (airtime st <=? airtime (setCr c st)) = true.
Proof.
  intros Hv Hc. pose proof Hv as (Hsf & Hbw & Hcr & Hpl & Hpre).
  pose proof (divisor_pos st (if Spec.ldro_requiredb st then true else ldrManual st) Hv)
    as Hd.
  unfold Spec.ldro_requiredb, Spec.bandwidthHz in Hd.
  apply airtime_le_of_payloadSyms; try reflexivity; try exact Hv.
  - unfold Spec.valid_rf. cbn [sf bw cr payload preamble setCr]. lia.
  - unfold_payloadSyms. apply Zplus_le_compat_l.
    apply numerator_max_mono; lia.
Qed.

Lemma airtime_monotone_in_coding_rate_witness :
  Spec.valid_rf heartbeat /\ (cr heartbeat <= 4 <= 4)%Z
  /\ (airtime heartbeat <=? airtime (setCr 4 heartbeat)) = true.
Proof.
  assert (Hv : Spec.valid_rf heartbeat) by (unfold Spec.valid_rf; simpl; lia).
  assert (Hc : (cr heartbeat <= 4 <= 4)%Z) by (simpl; lia).
  split; [exact Hv | ]. split; [exact Hc | ].
  exact (airtime_monotone_in_coding_rate heartbeat 4 Hv Hc).
Defined.

(** X5. Switching the manual low-data-rate optimisation on never gives a
    shorter airtime, and changes nothing when the optimisation is required
    anyway. *)
Theorem manual_ldro_never_shortens (st : State) :
  Spec.valid_rf st ->
  (airtime (setLdrManual false st) <=? airtime (setLdrManual true st)) = true
  /\ (ldrRequired st = true ->
      airtime (setLdrManual true st) = airtime (setLdrManual false st)).
Proof.
  intros Hv. pose proof Hv as (Hsf & Hbw & Hcr & Hpl & Hpre). split.
  - apply airtime_le_of_payloadSyms; try reflexivity; try exact Hv.
    unfold_payloadSyms. apply Zplus_le_compat_l.
    destruct (match (16 ?= 2 ^ sf st / inject_Z (bw st * 1000) * 1000)%Q with
              | Lt => true | _ => false end);
      apply numerator_max_mono; simpl; lia.
  - intros Hr. unfold airtime, ldrOptimize.
    change (ldrRequired (setLdrManual true st)) with (ldrRequired st).
    change (ldrRequired (setLdrManual false st)) with (ldrRequired st).
    rewrite Hr. reflexivity.
Qed.

Lemma manual_ldro_never_shortens_witness :
  Spec.valid_rf sf6_explicit
  /\ (airtime (setLdrManual false sf6_explicit)
      <=? airtime (setLdrManual true sf6_explicit)) = true.
Proof.
  assert (Hv : Spec.valid_rf sf6_explicit)
    by (unfold Spec.valid_rf; simpl; lia).
  split; [exact Hv | ].
  exact (proj1 (manual_ldro_never_shortens sf6_explicit Hv)).
Defined.

(** X6. One more preamble symbol always lengthens the packet, and by one
    symbol time: for a preamble within the 65535 the input allows, the
    airtime with preamble + 1 symbols is greater, and the difference is the
    [tSym_ms] the component computes for the LDRO test, to within the
    rounding allowance. *)
Theorem one_more_preamble_symbol (st : State) :
  Spec.valid_rf st -> (preamble st <= 65535)%Z ->
  exists d t : Q,
    airtime (setPreamble (preamble st + 1) st) - airtime st = of_Q d
    /\ tSym_ms st = of_Q t
    /\ (0 < t)%Q
    /\ close d t
    /\ (airtime st <? airtime (setPreamble (preamble st + 1) st)) = true.
Proof.
  intros Hv _. pose proof Hv as (Hsf & Hbw & Hcr & Hpl & Hpre).
  assert (Hv' : Spec.valid_rf (setPreamble (preamble st + 1) st)).
  { unfold Spec.valid_rf. cbn [sf bw cr payload preamble setPreamble]. lia. }
  assert (Hts : (0 < Spec.t_sym st)%Q) by (apply t_sym_pos; lia).
  assert (E : (Spec.airtime_ms (setPreamble (preamble st + 1) st)
               == Spec.airtime_ms st + Spec.t_sym st)%Q).
  { unfold Spec.airtime_ms, Spec.t_preamble, Spec.t_payload.
    change (Spec.t_sym (setPreamble (preamble st + 1) st)) with (Spec.t_sym st).
    change (Spec.payloadSyms (setPreamble (preamble st + 1) st))
      with (Spec.payloadSyms st).
    cbn [preamble setPreamble]. rewrite inject_Z_plus.
    change (inject_Z 1) with 1%Q. ring. }
  rewrite (airtime_spec _ Hv'), (airtime_spec st Hv).
  eexists. exists (Spec.t_sym st).
  split; [now num_norm | ].
  split; [rewrite tSym_ms_of_Q by lia; apply of_Q_eq;
          now rewrite (t_sym_kHz st) by lia | ].
  split; [exact Hts | ].
  split; [apply close_eq; lra | ].
  apply ltb_of_Q. lra.
Qed.

Lemma one_more_preamble_symbol_witness :
  Spec.valid_rf heartbeat /\ (preamble heartbeat <= 65535)%Z
  /\ (airtime heartbeat <? airtime (setPreamble 9 heartbeat)) = true.
Proof.
  assert (Hv : Spec.valid_rf heartbeat) by (unfold Spec.valid_rf; simpl; lia).
  assert (Hp : (preamble heartbeat <= 65535)%Z) by (simpl; lia).
  split; [exact Hv | ]. split; [exact Hp | ].
  destruct (one_more_preamble_symbol heartbeat Hv Hp)
    as (d & t & _ & _ & _ & _ & H).
  exact H.
Defined.

(* ================================================================== *)
(** ** Further properties: low data rate, dwell time, the two effects  *)
(* ================================================================== *)

Lemma sf_cases (st : State) :
  Spec.valid_rf st ->
  (sf st = 6 \/ sf st = 7 \/ sf st = 8 \/ sf st = 9 \/ sf st = 10
   \/ sf st = 11 \/ sf st = 12)%Z.
Proof. intros (Hsf & _). lia. Qed.

(** X7. On the documented domain the low-data-rate optimisation is required
    (symbol time above 16 ms) for exactly three settings: SF11 at 125 kHz,
    SF12 at 125 kHz and SF12 at 250 kHz. *)
Theorem ldrRequired_exactly_three_settings (st : State) :
  Spec.valid_rf st ->
  (ldrRequired st = true <->
   (sf st = 11 /\ bw st = 125) \/ (sf st = 12 /\ bw st = 125)
   \/ (sf st = 12 /\ bw st = 250))%Z.
Proof.
  intros Hv. pose proof (sf_cases st Hv) as Hs.
  destruct Hv as (_ & Hb & _).
  unfold ldrRequired, tSym_ms.
  repeat (destruct Hs as [Hs | Hs]); repeat (destruct Hb as [Hb | Hb]);
    rewrite Hs, Hb; vm_compute; split; intros H;
    first [ reflexivity | discriminate H | tauto
          | (repeat (destruct H as [H | H])); destruct H as [H1 H2];
            first [discriminate H1 | discriminate H2] ].
Qed.

Lemma ldrRequired_exactly_three_settings_witness :
  Spec.valid_rf heartbeat /\ ldrRequired heartbeat = true.
Proof.
  assert (Hv : Spec.valid_rf heartbeat) by (unfold Spec.valid_rf; simpl; lia).
  split; [exact Hv | ].
  apply (ldrRequired_exactly_three_settings heartbeat Hv).
  right; left. split; reflexivity.
Defined.

Lemma airtime_ms_lower_bound (st : State) :
  Spec.valid_rf st ->
  ((inject_Z (preamble st) + 12.25) * Spec.t_sym st <= Spec.airtime_ms st)%Q.
Proof.
  intros Hv. pose proof Hv as (Hsf & Hbw & Hcr & Hpl & Hpre).
  assert (Hts : (0 < Spec.t_sym st)%Q) by (apply t_sym_pos; lia).
  assert (Hs : (8 <= inject_Z (Spec.payloadSyms st))%Q).
  { rewrite <- (Zle_Qle 8). unfold Spec.payloadSyms. lia. }
  unfold Spec.airtime_ms, Spec.t_preamble, Spec.t_payload. nra.
Qed.

Lemma hasErrors_In (st : State) (w : Warning) :
  In w (warnings st) -> level w = error -> hasErrors st = true.
Proof.
  intros Hin Hl. unfold hasErrors. apply existsb_exists.
  exists w. split; [exact Hin | now rewrite Hl].
Qed.

(** At SF12 and 125 kHz every packet of the documented domain is on the air
    for more than 400 ms. *)
Lemma sf12_bw125_dwell (st : State) :
  Spec.valid_rf st -> sf st = 12%Z -> bw st = 125%Z -> us_dwell_ok st = false.
Proof.
  intros Hv Hsf Hbw. pose proof (airtime_ms_lower_bound st Hv) as Hlo.
  pose proof Hv as (_ & _ & _ & _ & Hpre).
  unfold us_dwell_ok. rewrite (airtime_spec st Hv), of_Z_of_Q.
  destruct (of_Q (Spec.airtime_ms st) <=? of_Q (inject_Z 400)) eqn:El;
    [ | reflexivity].
  apply leb_of_Q in El. exfalso.
  assert (Hts : (Spec.t_sym st == 32.768)%Q).
  { unfold Spec.t_sym, Spec.bandwidthHz. rewrite Hsf, Hbw. reflexivity. }
  rewrite Hts in Hlo.
  assert (Hp : (6 <= inject_Z (preamble st))%Q) by (rewrite <- (Zle_Qle 6); exact Hpre).
  change (inject_Z 400) with 400%Q in El. lra.
Qed.

(** X8. At SF12 and 125 kHz no packet of the documented domain meets the
    400 ms dwell limit; in the US region the verdict is a breach and W5 is
    reported, as an Error. *)
Theorem sf12_bw125_never_meets_us_dwell (st : State) :
  Spec.valid_rf st -> sf st = 12%Z -> bw st = 125%Z ->
  us_dwell_ok st = false
  /\ (region st = "us" ->
      compliant st = false /\ In W5 (warnings st) /\ hasErrors st = true).
Proof.
  intros Hv Hsf Hbw. pose proof (sf12_bw125_dwell st Hv Hsf Hbw) as Hd.
  split; [exact Hd | ]. intros Hr.
  assert (Hin : In W5 (warnings st)).
  { apply In_warnings. do 4 right. left. rewrite Hr, Hd. now split. }
  split; [unfold compliant; now rewrite Hr, Hd | ].
  split; [exact Hin | ]. now apply (hasErrors_In st W5).
Qed.

Lemma sf12_bw125_never_meets_us_dwell_witness :
  Spec.valid_rf us_51_bytes /\ sf us_51_bytes = 12%Z /\ bw us_51_bytes = 125%Z
  /\ us_dwell_ok us_51_bytes = false /\ compliant us_51_bytes = false.
Proof.
  assert (Hv : Spec.valid_rf us_51_bytes) by (unfold Spec.valid_rf; simpl; lia).
  pose proof (sf12_bw125_never_meets_us_dwell us_51_bytes Hv eq_refl eq_refl)
    as (H1 & H2).
  split; [exact Hv | ]. split; [reflexivity | ]. split; [reflexivity | ].
  split; [exact H1 | exact (proj1 (H2 eq_refl))].
Defined.

(** X9. The effect that clears the manual LDRO switch when the optimisation
    is required changes no output: the effective flag, the airtime, the
    warnings, the verdict and the battery life stay the same; afterwards the
    manual switch is off whenever the optimisation is required, and running
    the effect again changes nothing. *)
Theorem ldrEffect_changes_no_output (st : State) :
  ldrOptimize (ldrEffect st) = ldrOptimize st
  /\ airtime (ldrEffect st) = airtime st
  /\ warnings (ldrEffect st) = warnings st
  /\ compliant (ldrEffect st) = compliant st
  /\ batt_days (ldrEffect st) = batt_days st
  /\ (ldrRequired (ldrEffect st) = true -> ldrManual (ldrEffect st) = false)
  /\ ldrEffect (ldrEffect st) = ldrEffect st.
Proof.
  assert (Ho : ldrOptimize (ldrEffect st) = ldrOptimize st).
  { unfold ldrEffect, ldrOptimize. destruct (ldrRequired st) eqn:E.
    - change (ldrRequired (setLdrManual false st)) with (ldrRequired st).
      now rewrite E.
    - now rewrite E. }
  assert (Ha : airtime (ldrEffect st) = airtime st).
  { unfold airtime. rewrite Ho. unfold ldrEffect.
    destruct (ldrRequired st); reflexivity. }
  assert (Hr : ldrRequired (ldrEffect st) = ldrRequired st).
  { unfold ldrEffect. destruct (ldrRequired st) eqn:E; [ | exact E].
    change (ldrRequired (setLdrManual false st)) with (ldrRequired st). exact E. }
  split; [exact Ho | ]. split; [exact Ha | ].
  split.
  { unfold warnings, us_dwell_ok. rewrite Ha. unfold ldrEffect.
    destruct (ldrRequired st); reflexivity. }
  split.
  { unfold compliant, euCompliant, us_dwell_ok, duty_used_per_hour,
      duty_used_per_tx. rewrite Ha. unfold ldrEffect.
    destruct (ldrRequired st); reflexivity. }
  split.
  { unfold batt_days, tx_energy_per_day_mAh, energy_uAh. rewrite Ha.
    unfold ldrEffect. destruct (ldrRequired st); reflexivity. }
  split.
  { rewrite Hr. intros E. unfold ldrEffect. rewrite E. reflexivity. }
  unfold ldrEffect at 1. rewrite Hr. unfold ldrEffect.
  destruct (ldrRequired st) eqn:E; reflexivity.
Qed.

(** X10. The LDRO button does nothing while the optimisation is required;
    otherwise one click flips the effective flag and marks the preset
    "custom", and a second click restores every cell. *)
Theorem onClickLdro_toggles_unless_required (a : App) :
  (ldrRequired (cells a) = true -> onClickLdro a = a)
  /\ (ldrRequired (cells a) = false ->
      ldrOptimize (cells (onClickLdro a)) = negb (ldrOptimize (cells a))
      /\ preset (onClickLdro a) = "custom"
      /\ cells (onClickLdro (onClickLdro a)) = cells a).
Proof.
  split; intros Hr; unfold onClickLdro; rewrite Hr; [reflexivity | ].
  cbn [negb cells preset markCustom].
  change (ldrRequired (setLdrManual (negb (ldrManual (cells a))) (cells a)))
    with (ldrRequired (cells a)).
  rewrite Hr. cbn [negb cells preset markCustom].
  split; [ | split; [reflexivity | ] ].
  - unfold ldrOptimize.
    change (ldrRequired (setLdrManual (negb (ldrManual (cells a))) (cells a)))
      with (ldrRequired (cells a)).
    rewrite Hr. reflexivity.
  - destruct (cells a) as [rg s b pl c pre cc eh tp v ti eb bc lm].
    unfold setLdrManual. cbn. now rewrite negb_involutive.
Qed.

Lemma onClickLdro_toggles_unless_required_witness :
  ldrRequired (cells initial_App) = true
  /\ onClickLdro initial_App = initial_App
  /\ ldrRequired sf6_explicit = false
  /\ ldrOptimize (cells (onClickLdro {| preset := "custom"; cells := sf6_explicit |}))
     = true.
Proof.
  split; [reflexivity | ].
  split; [exact (proj1 (onClickLdro_toggles_unless_required initial_App) eq_refl) | ].
  split; [reflexivity | ].
  exact (proj1 (proj2 (onClickLdro_toggles_unless_required
                         {| preset := "custom"; cells := sf6_explicit |}) eq_refl)).
Defined.

(* ================================================================== *)
(** ** Further properties: presets and the TX power menu               *)
(* ================================================================== *)

Lemma PRESETS_lookup (k : string) (p : Preset) :
  PRESETS !! k = Some p -> In (k, p) PRESETS_entries.
Proof.
  intros H. apply list_elem_of_In. unfold PRESETS in H.
  now apply elem_of_list_to_map_2.
Qed.

(** Every entry of the catalogue has the same radio settings; only the
    payload differs. *)
Lemma PRESETS_values (k : string) (p : Preset) :
  PRESETS !! k = Some p ->
  preset_sf p = 12%Z /\ preset_bw p = 125%Z /\ preset_cr p = 2%Z
  /\ txPower_eu p = 14%Z /\ txPower_us p = 20%Z
  /\ In (preset_payload p) [6; 8; 12; 24]%Z.
Proof.
  intros H. apply PRESETS_lookup in H. unfold PRESETS_entries in H.
  simpl in H.
  repeat (destruct H as [[= <- <-] | H]; [simpl; intuition lia | ]).
  contradiction.
Qed.

Lemma presetEffect_Some (a a' : App) :
  preset a <> "custom" -> presetEffect a = Some a' ->
  exists p,
    PRESETS !! preset a = Some p
    /\ a' = {| preset := preset a;
               cells :=
                 setTxPower (if String.eqb (region (cells a)) "us"
                             then txPower_us p else txPower_eu p)
                   (setCr (preset_cr p)
                      (setPayload (preset_payload p)
                         (setBw (preset_bw p)
                            (setSf (preset_sf p) (cells a))))) |}.
Proof.
  intros Hc. unfold presetEffect.
  apply String.eqb_neq in Hc. rewrite Hc.
  destruct (PRESETS !! preset a) as [p | ]; [ | discriminate].
  intros [= <-]. exists p. split; reflexivity.
Qed.

(** X11. Applying a named preset (any key of the catalogue but "custom")
    sets SF12, 125 kHz, coding-rate offset 2, the payload of the preset (6,
    8, 12 or 24 bytes) and a TX power of 20 dBm in the US region and 14 dBm
    otherwise; every other cell is kept, and applying it again changes
    nothing. *)
Theorem presetEffect_named (a : App) (p : Preset) :
  preset a <> "custom" -> PRESETS !! preset a = Some p ->
  exists a',
    presetEffect a = Some a'
    /\ preset a' = preset a
    /\ sf (cells a') = 12%Z /\ bw (cells a') = 125%Z /\ cr (cells a') = 2%Z
    /\ payload (cells a') = preset_payload p
    /\ In (payload (cells a')) [6; 8; 12; 24]%Z
    /\ txPower (cells a')
       = (if String.eqb (region (cells a)) "us" then 20 else 14)%Z
    /\ region (cells a') = region (cells a)
    /\ preamble (cells a') = preamble (cells a)
    /\ crc (cells a') = crc (cells a)
    /\ explicitHeader (cells a') = explicitHeader (cells a)
    /\ euBand (cells a') = euBand (cells a)
    /\ voltage (cells a') = voltage (cells a)
    /\ txIntervalMin (cells a') = txIntervalMin (cells a)
    /\ battCapacity (cells a') = battCapacity (cells a)
    /\ ldrManual (cells a') = ldrManual (cells a)
    /\ presetEffect a' = Some a'.
Proof.
  intros Hc Hp. pose proof (PRESETS_values _ _ Hp) as (H1 & H2 & H3 & H4 & H5 & H6).
  pose proof Hc as Hc'. apply String.eqb_neq in Hc'.
  eexists. split.
  { unfold presetEffect. rewrite Hc', Hp. reflexivity. }
  cbn [preset cells sf bw cr payload txPower region preamble crc explicitHeader
       euBand voltage txIntervalMin battCapacity ldrManual
       setSf setBw setPayload setCr setTxPower].
  rewrite H1, H2, H3, H4, H5.
  repeat (split; [first [reflexivity | exact H6] | ]).
  unfold presetEffect. cbn [preset cells region setSf setBw setPayload setCr
                            setTxPower].
  rewrite Hc', Hp, H1, H2, H3, H4, H5. reflexivity.
Qed.

Lemma presetEffect_named_witness :
  exists a',
    presetEffect {| preset := "ping"; cells := heartbeat_20dBm |} = Some a'
    /\ payload (cells a') = 6%Z /\ txPower (cells a') = 14%Z.
Proof.
  destruct (presetEffect_named {| preset := "ping"; cells := heartbeat_20dBm |}
              {| preset_label := "Alive Ping";
                 desc := Some "Minimal keepalive · lowest power";
                 preset_sf := 12; preset_bw := 125; preset_payload := 6;
                 preset_cr := 2; txPower_eu := 14; txPower_us := 20 |})
    as (a' & H0 & _ & _ & _ & _ & H5 & _ & H7 & _).
  - simpl. discriminate.
  - vm_compute. reflexivity.
  - exists a'. split; [exact H0 | ]. split; [exact H5 | exact H7].
Defined.

(** X12. In the US region every named preset breaches the dwell limit: after
    the preset is applied (preamble of at least 6 symbols) the verdict is a
    breach, W5 is reported as an Error, and W4 fires too since the preset
    selects 20 dBm. *)
Theorem named_preset_in_US_breaches_dwell (a a' : App) :
  preset a <> "custom" -> presetEffect a = Some a' ->
  region (cells a) = "us" -> (6 <= preamble (cells a))%Z ->
  compliant (cells a') = false
  /\ In W5 (warnings (cells a'))
  /\ In W4 (warnings (cells a'))
  /\ hasErrors (cells a') = true.
Proof.
  intros Hc He Hr Hpre.
  destruct (presetEffect_Some a a' Hc He) as (p & Hp & ->).
  pose proof (PRESETS_values _ _ Hp) as (H1 & H2 & H3 & H4 & H5 & H6).
  cbn [cells]. rewrite Hr. cbn [String.eqb Ascii.eqb Bool.eqb].
  rewrite H1, H2, H3, H5.
  set (st' := setTxPower 20 (setCr 2 (setPayload (preset_payload p)
                (setBw 125 (setSf 12 (cells a)))))).
  assert (Hv : Spec.valid_rf st').
  { unfold Spec.valid_rf, st'.
    cbn [sf bw cr payload preamble setSf setBw setPayload setCr setTxPower].
    simpl in H6. lia. }
  assert (Hd : us_dwell_ok st' = false)
    by (apply sf12_bw125_dwell; [exact Hv | reflexivity | reflexivity]).
  assert (Hr' : region st' = "us") by exact Hr.
  assert (H5' : In W5 (warnings st')).
  { apply In_warnings. do 4 right. left. rewrite Hr', Hd. now split. }
  split; [unfold compliant; now rewrite Hr', Hd | ].
  split; [exact H5' | ].
  split; [apply In_warnings; do 3 right; left; now split | ].
  now apply (hasErrors_In st' W5).
Qed.

Lemma named_preset_in_US_breaches_dwell_witness :
  exists a',
    presetEffect {| preset := "ping"; cells := us_20dBm |} = Some a'
    /\ compliant (cells a') = false /\ hasErrors (cells a') = true.
Proof.
  eexists. split; [reflexivity | ].
  assert (Hc : "ping" <> "custom") by discriminate.
  assert (Hpre : (6 <= preamble us_20dBm)%Z) by (simpl; lia).
  pose proof (named_preset_in_US_breaches_dwell
                {| preset := "ping"; cells := us_20dBm |} _
                Hc eq_refl eq_refl Hpre) as (H1 & _ & _ & H4).
  split; [exact H1 | exact H4].
Defined.

(** Each warning is in the list exactly when its own guard holds. *)
Lemma In_each_warning (st : State) :
  (In W1 (warnings st) <->
     String.eqb (region st) "eu" && (bw st =? 500)%Z
       && String.eqb (euBand st) "g3" = true)
  /\ (In W2 (warnings st) <->
     String.eqb (region st) "eu" && (bw st =? 250)%Z
       && String.eqb (euBand st) "g3" = true)
  /\ (In W3 (warnings st) <->
     String.eqb (region st) "eu" && (txPower st >? 14)%Z = true)
  /\ (In W4 (warnings st) <-> (txPower st =? 20)%Z = true)
  /\ (In W5 (warnings st) <->
     String.eqb (region st) "us" && negb (us_dwell_ok st) = true)
  /\ (In W6 (warnings st) <->
     String.eqb (region st) "eu" && String.eqb (euBand st) "g2" = true)
  /\ (In W7 (warnings st) <-> (preamble st <? 8)%Z = true)
  /\ (In W8 (warnings st) <-> (sf st =? 6)%Z && explicitHeader st = true).
Proof.
  rewrite !In_warnings. unfold W1, W2, W3, W4, W5, W6, W7, W8.
  repeat split;
    match goal with
    | |- _ \/ _ -> _ =>
        intros H; repeat (destruct H as [H | H]); destruct H as [H E];
        first [ discriminate E | exact H ]
    | |- _ => tauto
    end.
Qed.

(** [hasErrors] and [hasCautions] from the eight guards. *)
Lemma aggregate_by_guards (st : State) :
  hasErrors st
  = (String.eqb (region st) "eu" && (bw st =? 500)%Z
       && String.eqb (euBand st) "g3")
    || (String.eqb (region st) "eu" && (txPower st >? 14)%Z)
    || (String.eqb (region st) "us" && negb (us_dwell_ok st))
    || ((sf st =? 6)%Z && explicitHeader st)
  /\ hasCautions st
  = (String.eqb (region st) "eu" && (bw st =? 250)%Z
       && String.eqb (euBand st) "g3")
    || (txPower st =? 20)%Z
    || (String.eqb (region st) "eu" && String.eqb (euBand st) "g2")
    || (preamble st <? 8)%Z.
Proof.
  unfold hasErrors, hasCautions, warnings.
  generalize (String.eqb (region st) "eu" && (bw st =? 500)%Z
              && String.eqb (euBand st) "g3"),
    (String.eqb (region st) "eu" && (bw st =? 250)%Z
     && String.eqb (euBand st) "g3"),
    (String.eqb (region st) "eu" && (txPower st >? 14)%Z),
    (txPower st =? 20)%Z,
    (String.eqb (region st) "us" && negb (us_dwell_ok st)),
    (String.eqb (region st) "eu" && String.eqb (euBand st) "g2"),
    (preamble st <? 8)%Z,
    ((sf st =? 6)%Z && explicitHeader st).
  intros c1 c2 c3 c4 c5 c6 c7 c8.
  destruct c1, c2, c3, c4, c5, c6, c7, c8; split; reflexivity.
Qed.

(** X13. In the EU region a named preset never produces an Error: after the
    preset is applied the only warnings that can remain are the two
    cautions W6 (sub-band g2) and W7 (preamble below 8). *)
Theorem named_preset_in_EU_has_no_error (a a' : App) :
  preset a <> "custom" -> presetEffect a = Some a' ->
  region (cells a) = "eu" ->
  hasErrors (cells a') = false
  /\ (forall w, In w (warnings (cells a')) -> w = W6 \/ w = W7).
Proof.
  intros Hc He Hr.
  destruct (presetEffect_Some a a' Hc He) as (p & Hp & ->).
  pose proof (PRESETS_values _ _ Hp) as (H1 & H2 & H3 & H4 & H5 & H6).
  cbn [cells]. rewrite Hr. cbn [String.eqb Ascii.eqb Bool.eqb].
  rewrite H1, H2, H3, H4.
  set (st' := setTxPower 14 (setCr 2 (setPayload (preset_payload p)
                (setBw 125 (setSf 12 (cells a)))))).
  assert (Hr' : region st' = "eu") by exact Hr.
  split.
  - rewrite (proj1 (aggregate_by_guards st')).
    change (bw st') with 125%Z. change (txPower st') with 14%Z.
    change (sf st') with 12%Z. rewrite Hr'. reflexivity.
  - intros w Hw. apply In_warnings in Hw.
    change (bw st') with 125%Z in Hw. change (txPower st') with 14%Z in Hw.
    change (sf st') with 12%Z in Hw. rewrite Hr' in Hw.
    cbn [String.eqb Ascii.eqb Bool.eqb Z.eqb Z.gtb Z.compare Pos.eqb
         Pos.compare Pos.compare_cont andb] in Hw.
    destruct Hw as [[H _] | [[H _] | [[H _] | [[H _] | [[H _] | [[_ H]
                   | [[_ H] | [H _]]]]]]]];
      first [ discriminate H | now left | now right ].
Qed.

Lemma named_preset_in_EU_has_no_error_witness :
  exists a',
    presetEffect {| preset := "status"; cells := bw500_g3_sf6 |} = Some a'
    /\ hasErrors bw500_g3_sf6 = true /\ hasErrors (cells a') = false.
Proof.
  eexists. split; [reflexivity | ]. split; [reflexivity | ].
  assert (Hc : "status" <> "custom") by discriminate.
  exact (proj1 (named_preset_in_EU_has_no_error
                  {| preset := "status"; cells := bw500_g3_sf6 |} _
                  Hc eq_refl eq_refl)).
Defined.

(** X14. Every TX power the menu offers has an entry in [TX_CURRENT], so the
    31 mA fallback is never used for a menu choice; and in the EU region a
    menu choice never triggers the TX power warnings W3 and W4. *)
Theorem txPowerMenu_choices (r : string) (p : Z) :
  In p (txPowerMenu r) ->
  (exists c, TX_CURRENT !! p = Some c)
  /\ (r <> "us" -> (p <= 14)%Z)
  /\ (forall st, region st = "eu" -> r = "eu" -> txPower st = p ->
        ~ In W3 (warnings st) /\ ~ In W4 (warnings st)).
Proof.
  intros Hin. unfold txPowerMenu in Hin. apply filter_In in Hin.
  destruct Hin as [Hopt Hf].
  assert (Hle : r <> "us" -> (p <= 14)%Z).
  { intros Hr. apply String.eqb_neq in Hr. rewrite Hr in Hf. simpl in Hf. lia. }
  split; [ | split; [exact Hle | ] ].
  - unfold TX_POWER_OPTIONS in Hopt. simpl in Hopt.
    repeat (destruct Hopt as [<- | Hopt]; [eexists; reflexivity | ]).
    contradiction.
  - intros st Hreg -> Hp.
    assert (Hp14 : (p <= 14)%Z) by (apply Hle; discriminate).
    destruct (In_each_warning st) as (_ & _ & H3 & H4 & _).
    rewrite H3, H4, Hp. split; intros H.
    + apply andb_true_iff in H. destruct H as [_ H]. lia.
    + lia.
Qed.

Lemma txPowerMenu_choices_witness :
  In 14%Z (txPowerMenu "eu")
  /\ (exists c, TX_CURRENT !! 14%Z = Some c)
  /\ ~ In 17%Z (txPowerMenu "eu") /\ In 17%Z (txPowerMenu "us").
Proof.
  assert (H : In 14%Z (txPowerMenu "eu")) by (vm_compute; tauto).
  split; [exact H | ].
  split; [exact (proj1 (txPowerMenu_choices "eu" 14%Z H)) | ].
  split; [ | vm_compute; tauto].
  vm_compute. intros H'.
  repeat (destruct H' as [H' | H']; [discriminate H' | ]). exact H'.
Defined.

(* ================================================================== *)
(** ** Further properties: the list of warnings as a whole             *)
(* ================================================================== *)

(** X15. The aggregate status of the warnings card: [hasErrors] holds
    exactly when one of W1, W3, W5, W8 is in the list, [hasCautions] exactly
    when one of W2, W4, W6, W7 is; the two counts shown in the header add up
    to the length of the list, and each flag holds exactly when its count is
    positive. *)
Theorem aggregate_status_of_warnings (st : State) :
  (hasErrors st = true <->
     In W1 (warnings st) \/ In W3 (warnings st) \/ In W5 (warnings st)
     \/ In W8 (warnings st))
  /\ (hasCautions st = true <->
     In W2 (warnings st) \/ In W4 (warnings st) \/ In W6 (warnings st)
     \/ In W7 (warnings st))
  /\ (error_count st + caution_count st = length (warnings st))%nat
  /\ (hasErrors st = true <-> (0 < error_count st)%nat)
  /\ (hasCautions st = true <-> (0 < caution_count st)%nat).
Proof.
  destruct (In_each_warning st) as (H1 & H2 & H3 & H4 & H5 & H6 & H7 & H8).
  destruct (aggregate_by_guards st) as [He Hc].
  split; [rewrite He, !orb_true_iff, H1, H3, H5, H8; tauto | ].
  split; [rewrite Hc, !orb_true_iff, H2, H4, H6, H7; tauto | ].
  clear. unfold hasErrors, hasCautions, error_count, caution_count, warnings.
  generalize (String.eqb (region st) "eu" && (bw st =? 500)%Z
              && String.eqb (euBand st) "g3"),
    (String.eqb (region st) "eu" && (bw st =? 250)%Z
     && String.eqb (euBand st) "g3"),
    (String.eqb (region st) "eu" && (txPower st >? 14)%Z),
    (txPower st =? 20)%Z,
    (String.eqb (region st) "us" && negb (us_dwell_ok st)),
    (String.eqb (region st) "eu" && String.eqb (euBand st) "g2"),
    (preamble st <? 8)%Z,
    ((sf st =? 6)%Z && explicitHeader st).
  intros c1 c2 c3 c4 c5 c6 c7 c8.
  destruct c1, c2, c3, c4, c5, c6, c7, c8; simpl;
    (split; [reflexivity | split; (split; intros H; first [reflexivity | lia | discriminate H])]).
Qed.

(** X16. Rules that can never fire together: W1, W2 and W6 exclude one
    another (one bandwidth, one sub-band), and the US dwell rule W5 excludes
    the four EU rules W1, W2, W3 and W6. *)
Theorem exclusive_rules (st : State) :
  ~ (In W1 (warnings st) /\ In W2 (warnings st))
  /\ ~ (In W1 (warnings st) /\ In W6 (warnings st))
  /\ ~ (In W2 (warnings st) /\ In W6 (warnings st))
  /\ ~ (In W5 (warnings st)
        /\ (In W1 (warnings st) \/ In W2 (warnings st)
            \/ In W3 (warnings st) \/ In W6 (warnings st))).
Proof.
  destruct (In_each_warning st) as (H1 & H2 & H3 & H4 & H5 & H6 & H7 & H8).
  rewrite H1, H2, H3, H5, H6. rewrite !andb_true_iff, !String.eqb_eq, !Z.eqb_eq.
  repeat split; intros H.
  - lia.
  - destruct H as [(_ & E3) (_ & E2)]. rewrite E3 in E2. discriminate E2.
  - destruct H as [(_ & E3) (_ & E2)]. rewrite E3 in E2. discriminate E2.
  - destruct H as [(Eus & _) H].
    assert (Eeu : region st = "eu") by tauto.
    rewrite Eus in Eeu. discriminate Eeu.
Qed.

(** X17. The list never holds more than five warnings, never more than
    three Errors and never more than three Cautions. *)
Theorem at_most_five_warnings (st : State) :
  (length (warnings st) <= 5)%nat
  /\ (error_count st <= 3)%nat
  /\ (caution_count st <= 3)%nat.
Proof.
  assert (Hr : String.eqb (region st) "eu" && String.eqb (region st) "us" = false).
  { destruct (String.eqb_spec (region st) "eu") as [E | E]; [ | reflexivity].
    rewrite E. reflexivity. }
  assert (Hb : (bw st =? 500)%Z && (bw st =? 250)%Z = false).
  { destruct (Z.eqb_spec (bw st) 500) as [E | E]; [ | reflexivity].
    rewrite E. reflexivity. }
  assert (Hg : String.eqb (euBand st) "g3" && String.eqb (euBand st) "g2" = false).
  { destruct (String.eqb_spec (euBand st) "g3") as [E | E]; [ | reflexivity].
    rewrite E. reflexivity. }
  unfold error_count, caution_count, warnings.
  revert Hr Hb Hg.
  generalize (String.eqb (region st) "eu"), (String.eqb (region st) "us"),
    (bw st =? 500)%Z, (bw st =? 250)%Z, (String.eqb (euBand st) "g3"),
    (String.eqb (euBand st) "g2"), (txPower st >? 14)%Z, (txPower st =? 20)%Z,
    (negb (us_dwell_ok st)), (preamble st <? 8)%Z,
    ((sf st =? 6)%Z && explicitHeader st).
  intros eu us b500 b250 g3 g2 t14 t20 dw p8 c8.
  destruct eu, us, b500, b250, g3, g2; simpl; intros Hr Hb Hg;
    try discriminate;
    destruct t14, t20, dw, p8, c8; simpl; lia.
Qed.

(** X18. In the US region the breach verdict and the dwell warning go
    together: the result is non-compliant exactly when W5 is in the list,
    and then [hasErrors] holds. *)
Theorem us_breach_is_reported (st : State) :
  region st = "us" ->
  (compliant st = false <-> In W5 (warnings st))
  /\ (compliant st = false -> hasErrors st = true).
Proof.
  intros Hr.
  destruct (In_each_warning st) as (_ & _ & _ & _ & H5 & _).
  assert (Hc : compliant st = false <-> In W5 (warnings st)).
  { rewrite H5. unfold compliant. rewrite Hr. simpl.
    destruct (us_dwell_ok st); simpl; intuition congruence. }
  split; [exact Hc | ]. intros H. apply Hc in H.
  now apply (hasErrors_In st W5).
Qed.

Lemma us_breach_is_reported_witness :
  region us_51_bytes = "us" /\ compliant us_51_bytes = false
  /\ In W5 (warnings us_51_bytes).
Proof.
  split; [reflexivity | ]. split; [vm_compute; reflexivity | ].
  apply (proj1 (us_breach_is_reported us_51_bytes eq_refl)).
  vm_compute. reflexivity.
Defined.

(* ================================================================== *)
(** ** Further properties: duty cycle, energy and battery life         *)
(* ================================================================== *)

Lemma tx_per_hour_pos (st : State) :
  (0 < txIntervalMin st)%Q ->
  tx_per_hour st = of_Q (60 / txIntervalMin st).
Proof.
  intros Hti. unfold tx_per_hour, gtb. rewrite !of_Z_of_Q.
  assert (E : (of_Q (inject_Z 0) <? of_Q (txIntervalMin st)) = true)
    by now apply ltb_of_Q.
  rewrite E. now rewrite div_of_Q by lra.
Qed.

Lemma duty_used_per_hour_of_Q (st : State) (a : Q) :
  airtime st = of_Q a -> (0 < txIntervalMin st)%Q ->
  duty_used_per_hour st = of_Q (a / 3600000 * 100 * (60 / txIntervalMin st)).
Proof.
  intros Ha Hti. unfold duty_used_per_hour, duty_used_per_tx.
  rewrite Ha, (tx_per_hour_pos st Hti). num_norm.
  rewrite div_of_Q by (apply inject_Z_nonzero; lia). now num_norm.
Qed.

(** The EU verdict as an inequality between the minimum interval and the
    interval chosen, both in seconds. *)
Lemma euCompliant_iff (st : State) (a d : Q) :
  airtime st = of_Q a -> (0 < a)%Q -> duty_limit st = of_Q d -> (0 < d)%Q ->
  (0 < txIntervalMin st)%Q ->
  (euCompliant st = true <-> (a / (d / 100) / 1000 <= 60 * txIntervalMin st)%Q).
Proof.
  intros Ha Hpos Hd Hdpos Hti. unfold euCompliant.
  rewrite (duty_used_per_hour_of_Q st a Ha Hti), Hd, leb_of_Q.
  set (t := txIntervalMin st) in *.
  set (X := (a / 3600000 * 100 * (60 / t))%Q).
  set (m := (a / (d / 100) / 1000)%Q).
  assert (E1 : (X * (600 * t) == a)%Q) by (unfold X; field; lra).
  assert (E2 : (m * (10 * d) == a)%Q) by (unfold m; field; lra).
  split; intros H.
  - assert (H1 : (X * (600 * t) <= d * (600 * t))%Q)
      by (apply Qmult_le_compat_r; lra).
    destruct (Qlt_le_dec (60 * t) m) as [Hlt | Hle]; [ | exact Hle].
    assert (H2 : (60 * t * (10 * d) < m * (10 * d))%Q)
      by (apply Qmult_lt_compat_r; lra).
    lra.
  - assert (H1 : (m * (10 * d) <= 60 * t * (10 * d))%Q)
      by (apply Qmult_le_compat_r; lra).
    destruct (Qlt_le_dec d X) as [Hlt | Hle]; [ | exact Hle].
    assert (H2 : (d * (600 * t) < X * (600 * t))%Q)
      by (apply Qmult_lt_compat_r; lra).
    lra.
Qed.

(** X19. In the EU region the verdict follows the minimum interval shown
    in the duty-cycle card: a transmit interval that is, in seconds, at
    least the minimum interval plus the rounding allowance is compliant, and
    one that is at most the minimum interval less the allowance is a
    breach. *)
Theorem eu_verdict_by_minimum_interval (st : State) :
  Spec.valid_rf st -> region st = "eu" -> (0 < txIntervalMin st)%Q ->
  exists m : Q,
    min_interval_s st = of_Q m
    /\ (0 < m)%Q
    /\ ((m * (1 + rounding_tolerance) <= 60 * txIntervalMin st)%Q ->
        compliant st = true)
    /\ ((60 * txIntervalMin st <= m * (1 - rounding_tolerance))%Q ->
        compliant st = false).
Proof.
  intros Hv Hr Hti.
  pose proof (airtime_spec st Hv) as Ha.
  pose proof (airtime_ms_pos st Hv) as Hpos.
  destruct (duty_limit_pos st) as (d & Hd & Hdpos).
  destruct (max_tx_min_interval st _ d Ha Hpos Hd Hdpos) as [_ Hm].
  pose proof (euCompliant_iff st _ d Ha Hpos Hd Hdpos Hti) as Hiff.
  set (m := (Spec.airtime_ms st / (d / 100) / 1000)%Q) in *.
  assert (Hmpos : (0 < m)%Q).
  { unfold m. apply Qlt_shift_div_l; [reflexivity | ]. rewrite Qmult_0_l.
    apply Qlt_shift_div_l; [ | lra].
    apply Qlt_shift_div_l; [reflexivity | lra]. }
  exists m. split; [exact Hm | ]. split; [exact Hmpos | ].
  unfold compliant. rewrite Hr. cbn [String.eqb Ascii.eqb Bool.eqb].
  unfold rounding_tolerance. split; intros H.
  - apply Hiff. nra.
  - destruct (euCompliant st) eqn:E; [ | reflexivity].
    assert (Hle : (m <= 60 * txIntervalMin st)%Q) by now apply Hiff.
    nra.
Qed.

Lemma eu_verdict_by_minimum_interval_witness :
  Spec.valid_rf heartbeat /\ region heartbeat = "eu"
  /\ (0 < txIntervalMin heartbeat)%Q
  /\ exists m : Q,
       min_interval_s heartbeat = of_Q m
       /\ (0 < m)%Q
       /\ ((m * (1 + rounding_tolerance) <= 60 * txIntervalMin heartbeat)%Q ->
           compliant heartbeat = true)
       /\ ((60 * txIntervalMin heartbeat <= m * (1 - rounding_tolerance))%Q ->
           compliant heartbeat = false).
Proof.
  assert (Hv : Spec.valid_rf heartbeat) by (unfold Spec.valid_rf; simpl; lia).
  assert (Hti : (0 < txIntervalMin heartbeat)%Q) by reflexivity.
  split; [exact Hv | ]. split; [reflexivity | ]. split; [exact Hti | ].
  exact (eu_verdict_by_minimum_interval heartbeat Hv eq_refl Hti).
Defined.

(** X20. Transmitting no more often than "Max TX / hour" is always within
    the duty-cycle budget: if the hourly rate is at most [max_tx_per_hour],
    the EU verdict is compliant. *)
Theorem rate_within_max_tx_is_compliant (st : State) :
  Spec.valid_rf st -> (0 < txIntervalMin st)%Q ->
  (tx_per_hour st <=? max_tx_per_hour st) = true ->
  euCompliant st = true.
Proof.
  intros Hv Hti Hrate.
  pose proof (airtime_spec st Hv) as Ha.
  pose proof (airtime_ms_pos st Hv) as Hpos.
  destruct (duty_limit_pos st) as (d & Hd & Hdpos).
  destruct (max_tx_min_interval st _ d Ha Hpos Hd Hdpos) as [Hn _].
  rewrite (tx_per_hour_pos st Hti), Hn in Hrate. apply leb_of_Q in Hrate.
  apply (euCompliant_iff st _ d Ha Hpos Hd Hdpos Hti).
  set (a := Spec.airtime_ms st) in *. set (t := txIntervalMin st) in *.
  set (x := (d / 100 * 3600000 / a)%Q) in *.
  pose proof (Qfloor_le x) as Hfl.
  assert (Hx : (60 / t <= x)%Q) by lra.
  assert (E1 : (60 / t * t == 60)%Q) by (field; lra).
  assert (E2 : (x * a == d * 36000)%Q) by (unfold x; field; lra).
  assert (E3 : (a / (d / 100) / 1000 * (10 * d) == a)%Q) by (field; lra).
  assert (H1 : (60 / t * t <= x * t)%Q) by (apply Qmult_le_compat_r; lra).
  assert (H2 : (60 * a <= x * t * a)%Q).
  { rewrite <- E1 at 1. apply Qmult_le_compat_r; lra. }
  assert (H3 : (x * t * a == d * 36000 * t)%Q).
  { rewrite <- E2. ring. }
  destruct (Qlt_le_dec (60 * t) (a / (d / 100) / 1000)) as [Hlt | Hle];
    [ | exact Hle].
  assert (H4 : (60 * t * (10 * d) < a / (d / 100) / 1000 * (10 * d))%Q)
    by (apply Qmult_lt_compat_r; lra).
  lra.
Qed.

Lemma rate_within_max_tx_is_compliant_witness :
  Spec.valid_rf heartbeat /\ (0 < txIntervalMin heartbeat)%Q
  /\ (tx_per_hour heartbeat <=? max_tx_per_hour heartbeat) = true
  /\ euCompliant heartbeat = true.
Proof.
  assert (Hv : Spec.valid_rf heartbeat) by (unfold Spec.valid_rf; simpl; lia).
  assert (Hti : (0 < txIntervalMin heartbeat)%Q) by reflexivity.
  assert (Hr : (tx_per_hour heartbeat <=? max_tx_per_hour heartbeat) = true)
    by (vm_compute; reflexivity).
  split; [exact Hv | ]. split; [exact Hti | ]. split; [exact Hr | ].
  exact (rate_within_max_tx_is_compliant heartbeat Hv Hti Hr).
Defined.

(** X21. An EU duty-cycle breach is never reported in the list of warnings:
    every valid EU configuration becomes non-compliant for a short enough
    transmit interval, while the warnings and [hasErrors] stay what they
    were. *)
Theorem eu_breach_is_never_reported (st : State) :
  Spec.valid_rf st -> region st = "eu" ->
  exists t : Q,
    (0 < t)%Q
    /\ compliant (setTxIntervalMin t st) = false
    /\ warnings (setTxIntervalMin t st) = warnings st
    /\ hasErrors (setTxIntervalMin t st) = hasErrors st.
Proof.
  intros Hv Hr.
  pose proof (airtime_spec st Hv) as Ha.
  pose proof (airtime_ms_pos st Hv) as Hpos.
  destruct (duty_limit_pos st) as (d & Hd & Hdpos).
  set (a := Spec.airtime_ms st) in *.
  set (m := (a / (d / 100) / 1000)%Q).
  assert (E : (m * (10 * d) == a)%Q) by (unfold m; field; lra).
  assert (Hm : (0 < m)%Q).
  { destruct (Qlt_le_dec 0 m) as [H | H]; [exact H | ].
    assert (m * (10 * d) <= 0 * (10 * d))%Q by (apply Qmult_le_compat_r; lra).
    lra. }
  exists (m / 120)%Q.
  assert (Ht : (0 < m / 120)%Q) by (apply Qlt_shift_div_l; lra).
  split; [exact Ht | ].
  split; [ | split; reflexivity].
  set (st' := setTxIntervalMin (m / 120) st).
  unfold compliant. change (region st') with (region st). rewrite Hr. simpl.
  destruct (euCompliant st') eqn:Ec; [ | reflexivity]. exfalso.
  apply (euCompliant_iff st' a d Ha Hpos Hd Hdpos Ht) in Ec.
  fold m in Ec. change (txIntervalMin st') with (m / 120)%Q in Ec.
  assert (E2 : (60 * (m / 120) == m / 2)%Q) by field.
  rewrite E2 in Ec.
  assert (m / 2 < m)%Q; [ | lra].
  apply Qlt_shift_div_r; lra.
Qed.

Lemma eu_breach_is_never_reported_witness :
  Spec.valid_rf heartbeat /\ region heartbeat = "eu"
  /\ compliant heartbeat_fast = false /\ warnings heartbeat_fast = []
  /\ exists t : Q,
       (0 < t)%Q /\ compliant (setTxIntervalMin t heartbeat) = false
       /\ warnings (setTxIntervalMin t heartbeat) = warnings heartbeat
       /\ hasErrors (setTxIntervalMin t heartbeat) = hasErrors heartbeat.
Proof.
  assert (Hv : Spec.valid_rf heartbeat) by (unfold Spec.valid_rf; simpl; lia).
  split; [exact Hv | ]. split; [reflexivity | ].
  split; [vm_compute; reflexivity | ]. split; [vm_compute; reflexivity | ].
  exact (eu_breach_is_never_reported heartbeat Hv eq_refl).
Defined.

(** X22. Energy and charge per transmission agree: the energy in mJ is the
    charge in uAh times 3.6 times the supply voltage, to within the rounding
    allowance. *)
Theorem energy_is_charge_times_voltage (st : State) :
  Spec.valid_rf st ->
  exists e q : Q,
    energy_mJ st = of_Q e
    /\ energy_uAh st * 3.6%Q * voltage st = of_Q q
    /\ close e q.
Proof.
  intros Hv. pose proof (airtime_spec st Hv) as Ha.
  destruct (energy_of_Q st _ _ Ha (current_mA_of_Z st)) as [HmJ HuAh].
  rewrite HmJ, HuAh. do 2 eexists.
  split; [reflexivity | ]. split; [now num_norm | ].
  apply close_eq. field.
Qed.

Lemma energy_is_charge_times_voltage_witness :
  Spec.valid_rf heartbeat
  /\ exists e q : Q,
       energy_mJ heartbeat = of_Q e
       /\ energy_uAh heartbeat * 3.6%Q * voltage heartbeat = of_Q q
       /\ close e q.
Proof.
  assert (Hv : Spec.valid_rf heartbeat) by (unfold Spec.valid_rf; simpl; lia).
  split; [exact Hv | ].
  exact (energy_is_charge_times_voltage heartbeat Hv).
Defined.

Lemma current_mA_pos (k : Z) : (0 < (TX_CURRENT !! k ?? 31))%Z.
Proof.
  destruct (TX_CURRENT !! k) as [c | ] eqn:E; simpl; [ | lia].
  rewrite TX_CURRENT_table in E. apply elem_of_list_to_map_2 in E.
  apply list_elem_of_In in E. simpl in E.
  repeat (destruct E as [[= <- <-] | E]; [lia | ]). contradiction.
Qed.

Lemma tx_per_hour_nonpos (st : State) :
  ~ (0 < txIntervalMin st)%Q -> tx_per_hour st = 0.
Proof.
  intros Hti. unfold tx_per_hour, gtb. rewrite (of_Z_of_Q 0).
  destruct (of_Q (inject_Z 0) <? of_Q (txIntervalMin st)) eqn:E;
    [ | reflexivity].
  apply ltb_of_Q in E. contradiction.
Qed.

(** X23. On the documented domain the battery life is +Infinity exactly
    when no transmission is scheduled (interval not positive); with a
    positive interval the daily charge is a positive number and the battery
    life is the capacity divided by it. *)
Theorem battery_life_infinite_iff_idle (st : State) :
  Spec.valid_rf st ->
  (batt_days st = PInf <-> ~ (0 < txIntervalMin st)%Q)
  /\ ((0 < txIntervalMin st)%Q ->
      exists daily : Q,
        tx_energy_per_day_mAh st = of_Q daily
        /\ (0 < daily)%Q
        /\ batt_days st = of_Q (battCapacity st / daily)).
Proof.
  intros Hv. pose proof (airtime_spec st Hv) as Ha.
  pose proof (airtime_ms_pos st Hv) as Hpos.
  destruct (energy_of_Q st _ _ Ha (current_mA_of_Z st)) as [_ HuAh].
  pose proof (current_mA_pos (txPower st)) as Hc.
  set (c := (TX_CURRENT !! txPower st ?? 31)%Z) in *.
  set (a := Spec.airtime_ms st) in *.
  assert (HcQ : (0 < inject_Z c)%Q) by (rewrite <- (Zlt_Qlt 0); exact Hc).
  assert (H1000 : ~ (inject_Z 1000 == 0)%Q) by (apply inject_Z_nonzero; lia).
  assert (Hpos_case : (0 < txIntervalMin st)%Q ->
            exists daily : Q,
              tx_energy_per_day_mAh st = of_Q daily /\ (0 < daily)%Q
              /\ batt_days st = of_Q (battCapacity st / daily)).
  { intros Hti.
    set (daily := (inject_Z c * (a / 1000) / 3.6 / inject_Z 1000
                   * (60 / txIntervalMin st) * inject_Z 24)%Q).
    assert (Hday : tx_energy_per_day_mAh st = of_Q daily).
    { unfold tx_energy_per_day_mAh. rewrite HuAh, (tx_per_hour_pos st Hti).
      num_norm. rewrite div_of_Q by exact H1000. now num_norm. }
    assert (Hdpos : (0 < daily)%Q).
    { unfold daily. change (inject_Z 1000) with 1000%Q.
      change (inject_Z 24) with 24%Q.
      assert (0 < 60 / txIntervalMin st)%Q by (apply Qlt_shift_div_l; lra).
      assert (0 < inject_Z c * (a / 1000) / 3.6 / 1000)%Q.
      { repeat (apply Qlt_shift_div_l; [reflexivity | rewrite Qmult_0_l]).
        apply Qmult_lt_0_compat; [exact HcQ | ].
        apply Qlt_shift_div_l; lra. }
      apply Qmult_lt_0_compat;
        [apply Qmult_lt_0_compat; assumption | reflexivity]. }
    exists daily. split; [exact Hday | ]. split; [exact Hdpos | ].
    unfold batt_days, gtb. rewrite Hday, (of_Z_of_Q 0).
    assert (E : (of_Q (inject_Z 0) <? of_Q daily) = true) by now apply ltb_of_Q.
    rewrite E. now rewrite div_of_Q by lra. }
  split; [ | exact Hpos_case].
  split.
  - intros Hinf Hti. destruct (Hpos_case Hti) as (daily & _ & _ & Hb).
    rewrite Hb in Hinf. discriminate Hinf.
  - intros Hti. unfold batt_days, tx_energy_per_day_mAh.
    rewrite (tx_per_hour_nonpos st Hti), HuAh. num_norm.
    rewrite div_of_Q by exact H1000. num_norm.
    assert (E : forall q : Q, of_Q (q * inject_Z 0 * inject_Z 24) = of_Q 0)
      by (intros q; apply of_Q_eq; change (inject_Z 0) with 0%Q; ring).
    rewrite E. reflexivity.
Qed.

Lemma battery_life_infinite_iff_idle_witness :
  Spec.valid_rf heartbeat_idle /\ batt_days heartbeat_idle = PInf
  /\ Spec.valid_rf heartbeat /\ is_finite (batt_days heartbeat) = true.
Proof.
  assert (Hv : Spec.valid_rf heartbeat_idle)
    by (unfold Spec.valid_rf; simpl; lia).
  assert (Hv' : Spec.valid_rf heartbeat) by (unfold Spec.valid_rf; simpl; lia).
  split; [exact Hv | ].
  split.
  { apply (proj1 (battery_life_infinite_iff_idle heartbeat_idle Hv)).
    simpl. intros H. discriminate H. }
  split; [exact Hv' | ].
  destruct (proj2 (battery_life_infinite_iff_idle heartbeat Hv') eq_refl)
    as (daily & _ & _ & Hb).
  rewrite Hb. reflexivity.
Defined.

(* ================================================================== *)
(** ** Further properties: the figures of the result cards             *)
(* ================================================================== *)

Lemma Math_min_l (a b : Q) : (a <= b)%Q -> Math_min (of_Q a) (of_Q b) = of_Q a.
Proof.
  intros H. unfold Math_min, of_Q at 1 2.
  change (Fin (Qred b) <? Fin (Qred a)) with (of_Q b <? of_Q a).
  destruct (of_Q b <? of_Q a) eqn:E; [ | reflexivity].
  apply ltb_of_Q in E. lra.
Qed.

Lemma Math_min_r (a b : Q) : (b < a)%Q -> Math_min (of_Q a) (of_Q b) = of_Q b.
Proof.
  intros H. unfold Math_min, of_Q at 1 2.
  change (Fin (Qred b) <? Fin (Qred a)) with (of_Q b <? of_Q a).
  apply ltb_of_Q in H. now rewrite H.
Qed.

Lemma rearm_of_Q (st : State) (a : Q) :
  airtime st = of_Q a ->
  rearm_g_s st = of_Q (a / 0.01 / 1000)
  /\ rearm_g3_s st = of_Q (a / 0.10 / 1000).
Proof.
  intros Ha. unfold rearm_g_s, rearm_g3_s. rewrite Ha. num_norm.
  rewrite !(div_of_Q a) by (intros E; discriminate E).
  rewrite !div_of_Q by (apply inject_Z_nonzero; lia).
  split; reflexivity.
Qed.

Lemma duty_limit_of_band (st : State) :
  (euBand st = "g" \/ euBand st = "g1" -> duty_limit st = of_Q 1)
  /\ (euBand st = "g3" -> duty_limit st = of_Q 10).
Proof.
  unfold duty_limit, euBandObj.
  split; [intros [E | E] | intros E]; rewrite E; reflexivity.
Qed.

(** X24. The re-arm box agrees with the duty-cycle card: the g re-arm time is
    ten times the g3 re-arm time, to within the rounding allowance; on
    sub-band g or g1 the minimum interval is the g re-arm time and
    "Max TX / hour" is the g "events / hr" figure or next to it (both are
    whole numbers, at most one apart), and on sub-band g3 the same holds with
    the g3 figures. *)
Theorem rearm_box_agrees_with_duty_card (st : State) :
  Spec.valid_rf st ->
  exists (g g3 : Q) (n e e3 : Z),
    rearm_g_s st = of_Q g /\ rearm_g3_s st = of_Q g3 /\ close g (10 * g3)
    /\ max_tx_per_hour st = of_Z n
    /\ rearm_g_events st = of_Z e /\ rearm_g3_events st = of_Z e3
    /\ (euBand st = "g" \/ euBand st = "g1" ->
        min_interval_s st = rearm_g_s st /\ (Z.abs (n - e) <= 1)%Z)
    /\ (euBand st = "g3" ->
        min_interval_s st = rearm_g3_s st /\ (Z.abs (n - e3) <= 1)%Z).
Proof.
  intros Hv. pose proof (airtime_spec st Hv) as Ha.
  pose proof (airtime_ms_pos st Hv) as Hpos.
  destruct (rearm_of_Q st _ Ha) as [Hg Hg3].
  destruct (duty_limit_of_band st) as [Hb1 Hb10].
  destruct (duty_limit_pos st) as (d & Hd & Hdpos).
  destruct (max_tx_min_interval st _ d Ha Hpos Hd Hdpos) as [Hn Hm].
  set (a := Spec.airtime_ms st) in *.
  assert (Hev : forall r : Q, (0 < r)%Q ->
            Math_floor (3600 / of_Q (a / r / 1000))
            = of_Z (Qfloor (3600 / (a / r / 1000)))).
  { intros r Hr. rewrite !of_Z_of_Q.
    rewrite div_of_Q; [now num_norm | ].
    intros E. assert (a / r / 1000 * (r * 1000) == a)%Q by (field; lra).
    rewrite E in H. lra. }
  exists (a / 0.01 / 1000)%Q, (a / 0.10 / 1000)%Q,
    (Qfloor (d / 100 * 3600000 / a)),
    (Qfloor (3600 / (a / 0.01 / 1000))), (Qfloor (3600 / (a / 0.10 / 1000))).
  split; [exact Hg | ]. split; [exact Hg3 | ].
  split; [apply close_eq; field | ].
  split; [now rewrite of_Z_of_Q | ].
  split; [unfold rearm_g_events; rewrite Hg; now apply Hev | ].
  split; [unfold rearm_g3_events; rewrite Hg3; now apply Hev | ].
  split.
  - intros Hb. specialize (Hb1 Hb). rewrite Hd in Hb1.
    assert (E1 : (d == 1)%Q).
    { unfold of_Q in Hb1. injection Hb1 as Ed.
      rewrite <- (Qred_correct d), Ed. apply Qred_correct. }
    split.
    + rewrite Hm, Hg. apply of_Q_eq. rewrite E1. field; lra.
    + assert (E2 : Qfloor (d / 100 * 3600000 / a)
                   = Qfloor (3600 / (a / 0.01 / 1000))).
      { apply Qfloor_comp. rewrite E1. field; lra. }
      rewrite E2. lia.
  - intros Hb. specialize (Hb10 Hb). rewrite Hd in Hb10.
    assert (E1 : (d == 10)%Q).
    { unfold of_Q in Hb10. injection Hb10 as Ed.
      rewrite <- (Qred_correct d), Ed. apply Qred_correct. }
    split.
    + rewrite Hm, Hg3. apply of_Q_eq. rewrite E1. field; lra.
    + assert (E2 : Qfloor (d / 100 * 3600000 / a)
                   = Qfloor (3600 / (a / 0.10 / 1000))).
      { apply Qfloor_comp. rewrite E1. field; lra. }
      rewrite E2. lia.
Qed.

Lemma rearm_box_agrees_with_duty_card_witness :
  Spec.valid_rf heartbeat
  /\ min_interval_s heartbeat = rearm_g_s heartbeat.
Proof.
  assert (Hv : Spec.valid_rf heartbeat) by (unfold Spec.valid_rf; simpl; lia).
  split; [exact Hv | ].
  destruct (rearm_box_agrees_with_duty_card heartbeat Hv)
    as (g & g3 & n & e & e3 & _ & _ & _ & _ & _ & _ & H & _).
  apply H. left. reflexivity.
Defined.

Lemma duty_used_nonneg (st : State) :
  Spec.valid_rf st ->
  exists u : Q, duty_used_per_hour st = of_Q u /\ (0 <= u)%Q.
Proof.
  intros Hv. pose proof (airtime_spec st Hv) as Ha.
  pose proof (airtime_ms_pos st Hv) as Hpos.
  destruct (Qlt_le_dec 0 (txIntervalMin st)) as [Hti | Hti].
  - eexists. split; [exact (duty_used_per_hour_of_Q st _ Ha Hti) | ].
    assert (0 < 60 / txIntervalMin st)%Q by (apply Qlt_shift_div_l; lra).
    assert (0 < Spec.airtime_ms st / 3600000 * 100)%Q.
    { apply Qmult_lt_0_compat; [ | reflexivity].
      apply Qlt_shift_div_l; [reflexivity | lra]. }
    apply Qlt_le_weak. now apply Qmult_lt_0_compat.
  - exists 0%Q. split; [ | lra].
    unfold duty_used_per_hour, duty_used_per_tx.
    rewrite tx_per_hour_nonpos by lra. rewrite Ha. num_norm.
    rewrite div_of_Q by (apply inject_Z_nonzero; lia). num_norm.
    apply of_Q_eq. change (inject_Z 0) with 0%Q. ring.
Qed.

(** X25. The duty-cycle card never contradicts the verdict: the bar width is
    a percentage between 0 and 100; when the EU verdict is a breach the
    figure is styled "danger" and the bar is full; and a figure styled
    "good" only appears when the verdict is compliant. *)
Theorem duty_card_matches_verdict (st : State) :
  Spec.valid_rf st ->
  exists w : Q,
    duty_bar_width st = of_Q w /\ (0 <= w <= 100)%Q
    /\ (euCompliant st = false -> duty_class st = "danger" /\ (w == 100)%Q)
    /\ (duty_class st = "good" -> euCompliant st = true).
Proof.
  intros Hv.
  destruct (duty_used_nonneg st Hv) as (u & Hu & Hu0).
  destruct (duty_limit_pos st) as (d & Hd & Hdpos).
  set (p := (u / d * 100)%Q).
  assert (Hp : duty_pct_of_limit st = of_Q p).
  { unfold duty_pct_of_limit. rewrite Hu, Hd. num_norm.
    rewrite div_of_Q by lra. now num_norm. }
  assert (E : (p * d == u * 100)%Q) by (unfold p; field; lra).
  assert (Hp0 : (0 <= p)%Q).
  { destruct (Qlt_le_dec p 0) as [H | H]; [ | exact H].
    assert (p * d < 0 * d)%Q by (apply Qmult_lt_compat_r; lra). lra. }
  assert (Hc : euCompliant st = true <-> (u <= d)%Q).
  { unfold euCompliant. rewrite Hu, Hd. apply leb_of_Q. }
  assert (Hgt : forall k : Z, (duty_pct_of_limit st >? k) = true
                              <-> (inject_Z k < p)%Q).
  { intros k. unfold gtb. rewrite Hp, of_Z_of_Q. apply ltb_of_Q. }
  assert (Hbreach : euCompliant st = false -> (100 < p)%Q).
  { intros Hf. destruct (Qlt_le_dec 100 p) as [H | H]; [exact H | ]. exfalso.
    assert (p * d <= 100 * d)%Q by (apply Qmult_le_compat_r; lra).
    assert (u <= d)%Q by lra. apply Hc in H1. congruence. }
  unfold duty_bar_width. rewrite Hp, (of_Z_of_Q 100).
  destruct (Qlt_le_dec 100 p) as [Hfull | Hpart].
  - exists 100%Q. split; [now apply Math_min_r | ]. split; [lra | ].
    split.
    + intros _. split; [ | reflexivity].
      unfold duty_class. assert (H90 : (inject_Z 90 < p)%Q).
      { change (inject_Z 90) with 90%Q. lra. }
      apply Hgt in H90. now rewrite H90.
    + intros Hgood. exfalso. unfold duty_class in Hgood.
      assert (H90 : (inject_Z 90 < p)%Q).
      { change (inject_Z 90) with 90%Q. lra. }
      apply Hgt in H90. rewrite H90 in Hgood. discriminate Hgood.
  - exists p. split; [now apply Math_min_l | ]. split; [lra | ].
    split.
    + intros Hf. apply Hbreach in Hf. lra.
    + intros _. apply Hc.
      destruct (Qlt_le_dec d u) as [H | H]; [ | exact H]. exfalso.
      assert (d * 100 < u * 100)%Q by lra.
      assert (p * d <= 100 * d)%Q by (apply Qmult_le_compat_r; lra). lra.
Qed.

Lemma duty_card_matches_verdict_witness :
  Spec.valid_rf heartbeat_fast
  /\ euCompliant heartbeat_fast = false
  /\ duty_class heartbeat_fast = "danger"
  /\ duty_bar_width heartbeat_fast = 100.
Proof.
  assert (Hv : Spec.valid_rf heartbeat_fast)
    by (unfold Spec.valid_rf; simpl; lia).
  assert (Hf : euCompliant heartbeat_fast = false) by (vm_compute; reflexivity).
  split; [exact Hv | ]. split; [exact Hf | ].
  destruct (duty_card_matches_verdict heartbeat_fast Hv)
    as (w & Hw & _ & Hb & _).
  destruct (Hb Hf) as [Hcl Hw100].
  split; [exact Hcl | ]. rewrite Hw, of_Z_of_Q. now apply of_Q_eq.
Defined.

(** X26. The dwell card never contradicts the verdict: the percentage of the
    400 ms limit is at most 100 exactly when the dwell check passes, and the
    bar is a positive width of at most 100, full when the check fails. *)
Theorem dwell_card_matches_verdict (st : State) :
  Spec.valid_rf st ->
  exists p w : Q,
    dwell_pct st = of_Q p /\ dwell_bar_width st = of_Q w
    /\ (0 < w <= 100)%Q
    /\ (us_dwell_ok st = true <-> (p <= 100)%Q)
    /\ (us_dwell_ok st = false -> (w == 100)%Q).
Proof.
  intros Hv. pose proof (airtime_spec st Hv) as Ha.
  pose proof (airtime_ms_pos st Hv) as Hpos.
  set (a := Spec.airtime_ms st) in *.
  set (p := (a / 400 * 100)%Q).
  assert (Hp : dwell_pct st = of_Q p).
  { unfold dwell_pct. rewrite Ha. num_norm.
    rewrite div_of_Q by (apply inject_Z_nonzero; lia). now num_norm. }
  assert (Ep : (p * 4 == a)%Q) by (unfold p; field).
  assert (Hok : us_dwell_ok st = true <-> (p <= 100)%Q).
  { unfold us_dwell_ok. rewrite Ha, of_Z_of_Q, leb_of_Q.
    change (inject_Z 400) with 400%Q. split; intros H; lra. }
  assert (Hp0 : (0 < p)%Q) by lra.
  unfold dwell_bar_width. rewrite Hp, (of_Z_of_Q 100).
  destruct (Qlt_le_dec 100 p) as [Hfull | Hpart].
  - exists p, 100%Q. split; [reflexivity | ].
    split; [now apply Math_min_r | ]. split; [lra | ].
    split; [exact Hok | ]. intros _. reflexivity.
  - exists p, p. split; [reflexivity | ].
    split; [now apply Math_min_l | ]. split; [lra | ].
    split; [exact Hok | ]. intros Hf. apply Hok in Hpart. congruence.
Qed.

Lemma dwell_card_matches_verdict_witness :
  Spec.valid_rf us_20dBm
  /\ exists p w : Q,
       dwell_pct us_20dBm = of_Q p /\ dwell_bar_width us_20dBm = of_Q w
       /\ (0 < w <= 100)%Q
       /\ (us_dwell_ok us_20dBm = true <-> (p <= 100)%Q)
       /\ (us_dwell_ok us_20dBm = false -> (w == 100)%Q).
Proof.
  assert (Hv : Spec.valid_rf us_20dBm) by (unfold Spec.valid_rf; simpl; lia).
  split; [exact Hv | ].
  exact (dwell_card_matches_verdict us_20dBm Hv).
Defined.

(** X27. The two figures of the time-on-air card: the symbol duration shown
    is the symbol time the component tests against 16 ms, and the effective
    bitrate shown is a positive number which, multiplied by the symbol time,
    gives the SF * 4/(4+CR) information bits carried by one symbol, to
    within the rounding allowance. *)
Theorem symbol_time_and_bitrate_shown (st : State) :
  Spec.valid_rf st ->
  symbolDuration_shown st = tSym_ms st
  /\ exists r t : Q,
       bitrate_shown st = of_Q r /\ (0 < r)%Q
       /\ tSym_ms st = of_Q t
       /\ close (r * t) (inject_Z (sf st) * (4 / (4 + inject_Z (cr st)))).
Proof.
  intros Hv. pose proof Hv as (Hsf & Hbw & Hcr & Hpl & Hpre).
  assert (Hbw0 : ~ (inject_Z (bw st) == 0)%Q) by (apply inject_Z_nonzero; lia).
  assert (H1000 : ~ (inject_Z 1000 == 0)%Q) by (apply inject_Z_nonzero; lia).
  assert (H2 : (0 < 2 ^ sf st)%Q) by now apply Qpower_0_lt.
  assert (HsfQ : (6 <= inject_Z (sf st))%Q) by (rewrite <- (Zle_Qle 6); lia).
  assert (HbwQ : (0 < inject_Z (bw st))%Q) by (rewrite <- (Zlt_Qlt 0); lia).
  assert (HcrQ : (1 <= inject_Z (cr st))%Q) by (rewrite <- (Zle_Qle 1); lia).
  assert (Hcr4 : ~ (inject_Z 4 + inject_Z (cr st) == 0)%Q).
  { change (inject_Z 4) with 4%Q. lra. }
  split.
  - rewrite tSym_ms_of_Q by lia. unfold symbolDuration_shown, Math_pow2.
    num_norm. rewrite div_of_Q; [ | change (inject_Z 1000) with 1000%Q; nra].
    num_norm. apply of_Q_eq. field. exact Hbw0.
  - set (r := (inject_Z (sf st) * (inject_Z 4 / (inject_Z 4 + inject_Z (cr st)))
               * inject_Z (bw st) * inject_Z 1000 / 2 ^ sf st
               / inject_Z 1000)%Q).
    assert (Hr : bitrate_shown st = of_Q r).
    { unfold bitrate_shown, Math_pow2. num_norm.
      rewrite (div_of_Q (inject_Z 4)) by exact Hcr4. num_norm.
      rewrite (div_of_Q _ (2 ^ sf st)) by lra.
      now rewrite div_of_Q by exact H1000. }
    exists r, (2 ^ sf st / inject_Z (bw st))%Q. split; [exact Hr | ].
    assert (Hcode : (0 < inject_Z 4 / (inject_Z 4 + inject_Z (cr st)))%Q).
    { apply Qlt_shift_div_l; change (inject_Z 4) with 4%Q; lra. }
    split; [ | split].
    + unfold r. change (inject_Z 1000) with 1000%Q.
      apply Qlt_shift_div_l; [reflexivity | rewrite Qmult_0_l].
      apply Qlt_shift_div_l; [exact H2 | rewrite Qmult_0_l].
      apply Qmult_lt_0_compat; [ | reflexivity].
      apply Qmult_lt_0_compat; [ | exact HbwQ].
      apply Qmult_lt_0_compat; [lra | exact Hcode].
    + apply tSym_ms_of_Q. lia.
    + apply close_eq.
      unfold r. change (inject_Z 4) with 4%Q. field.
      repeat split; first [lra | assumption].
Qed.

Lemma symbol_time_and_bitrate_shown_witness :
  Spec.valid_rf heartbeat
  /\ symbolDuration_shown heartbeat = of_Q 32.768.
Proof.
  assert (Hv : Spec.valid_rf heartbeat) by (unfold Spec.valid_rf; simpl; lia).
  split; [exact Hv | ].
  destruct (symbol_time_and_bitrate_shown heartbeat Hv) as [H1 _].
  rewrite H1. vm_compute. reflexivity.
Defined.

(* ================================================================== *)
(** ** Further properties: switching the region                        *)
(* ================================================================== *)

(** X28. Under a named preset, switching to the US region and back is a
    round trip: starting from an EU state on which the preset is already
    applied, the US state has 20 dBm, and after switching back the preset
    effect restores exactly the state one started from.  Under "custom" the
    effect does nothing, so the TX power chosen in the US is kept in the
    EU. *)
Theorem region_round_trip (a a1 a2 : App) :
  region (cells a) = "eu" ->
  presetEffect (onClickRegion "us" a) = Some a1 ->
  presetEffect (onClickRegion "eu" a1) = Some a2 ->
  (preset a <> "custom" -> presetEffect a = Some a ->
   txPower (cells a1) = 20%Z /\ a2 = a)
  /\ (preset a = "custom" ->
      txPower (cells a2) = txPower (cells a) /\ a2 = a).
Proof.
  intros Hr H1 H2. split.
  - intros Hc Hfix.
    destruct (presetEffect_Some _ _ Hc Hfix) as (p & Hp & Ea).
    pose proof (PRESETS_values _ _ Hp) as (V1 & V2 & V3 & V4 & V5 & _).
    destruct (presetEffect_Some (onClickRegion "us" a) a1 Hc H1)
      as (p1 & Hp1 & E1).
    cbn [preset cells onClickRegion] in Hp1, E1.
    rewrite Hp in Hp1. injection Hp1 as <-.
    assert (Hc1 : preset (onClickRegion "eu" a1) <> "custom")
      by (rewrite E1; exact Hc).
    destruct (presetEffect_Some _ _ Hc1 H2) as (p2 & Hp2 & E2).
    rewrite E1 in Hp2. cbn [preset cells onClickRegion] in Hp2.
    rewrite Hp in Hp2. injection Hp2 as <-.
    split.
    + rewrite E1. cbn [cells txPower setTxPower region setRegion].
      exact V5.
    + rewrite E2, E1. clear E1 E2 H1 H2 Hfix.
      destruct a as [pr st].
      destruct st as [rg s b pl c pre cc eh tp v ti eb bc lm].
      cbn in Hr, Ea |- *. subst rg. cbn in Ea.
      injection Ea as Es Eb Epl Ecr Etp.
      rewrite <- Es, <- Eb, <- Epl, <- Ecr, <- Etp. reflexivity.
  - intros Hc.
    unfold presetEffect in H1. cbn [preset cells onClickRegion] in H1.
    rewrite Hc in H1. cbn in H1. injection H1 as <-.
    unfold presetEffect in H2. cbn [preset cells onClickRegion] in H2.
    rewrite Hc in H2. cbn in H2. injection H2 as <-.
    split; [reflexivity | ].
    destruct a as [pr st]. destruct st.
    cbn in Hr |- *. now rewrite Hr.
Qed.

Lemma region_round_trip_witness :
  region (cells initial_App) = "eu"
  /\ exists a1,
       presetEffect (onClickRegion "us" initial_App) = Some a1
       /\ txPower (cells a1) = 20%Z
       /\ presetEffect (onClickRegion "eu" a1) = Some initial_App.
Proof.
  split; [reflexivity | ].
  assert (E1 : presetEffect (onClickRegion "us" initial_App)
               = Some {| preset := "heartbeat";
                         cells := setTxPower 20 (setRegion "us" heartbeat) |})
    by (vm_compute; reflexivity).
  assert (E2 : presetEffect
                 (onClickRegion "eu"
                    {| preset := "heartbeat";
                       cells := setTxPower 20 (setRegion "us" heartbeat) |})
               = Some initial_App)
    by (vm_compute; reflexivity).
  assert (Hc : preset initial_App <> "custom") by discriminate.
  assert (Hfix : presetEffect initial_App = Some initial_App)
    by (vm_compute; reflexivity).
  destruct (proj1 (region_round_trip initial_App _ _ eq_refl E1 E2) Hc Hfix)
    as [Ht _].
  eexists. split; [exact E1 | ]. split; [exact Ht | exact E2].
Defined.

(** X29. Manual edits survive the preset effect: each handler of an RF
    field (SF, bandwidth, coding rate, payload, preamble, TX power, CRC,
    explicit header) stores the new value and marks the preset "custom", and
    the preset effect that runs afterwards returns that state unchanged,
    whatever preset was selected before. *)
Theorem manual_edit_survives_preset_effect (a : App) (v : Z) :
  (presetEffect (onChangeSf v a) = Some (onChangeSf v a)
   /\ sf (cells (onChangeSf v a)) = v)
  /\ (presetEffect (onChangeBw v a) = Some (onChangeBw v a)
      /\ bw (cells (onChangeBw v a)) = v)
  /\ (presetEffect (onChangeCr v a) = Some (onChangeCr v a)
      /\ cr (cells (onChangeCr v a)) = v)
  /\ (presetEffect (onChangePayload v a) = Some (onChangePayload v a)
      /\ payload (cells (onChangePayload v a)) = v)
  /\ (presetEffect (onChangePreamble v a) = Some (onChangePreamble v a)
      /\ preamble (cells (onChangePreamble v a)) = v)
  /\ (presetEffect (onChangeTxPower v a) = Some (onChangeTxPower v a)
      /\ txPower (cells (onChangeTxPower v a)) = v)
  /\ (presetEffect (onClickCrc a) = Some (onClickCrc a)
      /\ crc (cells (onClickCrc a)) = negb (crc (cells a)))
  /\ (presetEffect (onClickExplicitHdr a) = Some (onClickExplicitHdr a)
      /\ explicitHeader (cells (onClickExplicitHdr a))
         = negb (explicitHeader (cells a))).
Proof. repeat split; reflexivity. Qed.
